(** * A shallow embedding of [lwe/backends/api/orm.py]

    The three mapped tables [User], [Conversation] and [Message], the
    SQLAlchemy session of the [Manager] (a committed store, the session's
    working view with its pending changes, the clock read by
    [datetime.datetime.now()] and a count of commits), the legacy [Query]
    builder with its ordering, [limit]/[offset] and its assertion that no
    filter follows a limit, and the [Manager.orm_*] methods. *)

From Stdlib Require Import List ZArith String Bool Lia Sorted Permutation.
Import ListNotations.
Set Warnings "-register-all".
Open Scope Z_scope.

(** ** Column values *)

(** The [JSON] column [User.preferences]. *)
Inductive Json : Type :=
| JNull
| JBool (b : bool)
| JNum (z : Z)
| JStr (s : string)
| JArr (l : list Json)
| JObj (kv : list (string * Json)).

(** Python truthiness of the value bound to [preferences]
    ([None], [False], [0], the empty string, list and dict are falsy). *)
Definition json_truthy (j : Json) : bool :=
  match j with
  | JNull => false
  | JBool b => b
  | JNum z => negb (z =? 0)
  | JStr s => negb (String.eqb s EmptyString)
  | JArr l => match l with [] => false | _ => true end
  | JObj kv => match kv with [] => false | _ => true end
  end.

(** ** The mapped classes.  [DateTime] columns are timestamps in [Z];
    a nullable column is an [option]. *)

Module User.
Record t : Type := {
  id : Z;
  username : string;
  password : option string;
  email : option string;
  default_preset : string;
  created_time : Z;
  last_login_time : option Z;
  preferences : Json }.

(** Keyword arguments [**kwargs] of [orm_edit_user]: a column name and
    its value. *)
Inductive kwarg : Type :=
| kw_id (v : Z)
| kw_username (v : string)
| kw_password (v : option string)
| kw_email (v : option string)
| kw_default_preset (v : string)
| kw_created_time (v : Z)
| kw_last_login_time (v : option Z)
| kw_preferences (v : Json).

Inductive attr : Type :=
| a_id | a_username | a_password | a_email | a_default_preset
| a_created_time | a_last_login_time | a_preferences.

Definition attr_eq_dec (a b : attr) : {a = b} + {a <> b}.
Proof. decide equality. Defined.

Definition attr_of (k : kwarg) : attr :=
  match k with
  | kw_id _ => a_id | kw_username _ => a_username
  | kw_password _ => a_password | kw_email _ => a_email
  | kw_default_preset _ => a_default_preset
  | kw_created_time _ => a_created_time
  | kw_last_login_time _ => a_last_login_time
  | kw_preferences _ => a_preferences
  end.

(** [getattr(user, name)], paired with its name. *)
Definition getattr (u : t) (a : attr) : kwarg :=
  match a with
  | a_id => kw_id (id u) | a_username => kw_username (username u)
  | a_password => kw_password (password u) | a_email => kw_email (email u)
  | a_default_preset => kw_default_preset (default_preset u)
  | a_created_time => kw_created_time (created_time u)
  | a_last_login_time => kw_last_login_time (last_login_time u)
  | a_preferences => kw_preferences (preferences u)
  end.

(** [setattr(user, key, value)] *)
Definition setattr (u : t) (k : kwarg) : t :=
  let '(Build_t i n p e d c l f) := u in
  match k with
  | kw_id v => Build_t v n p e d c l f
  | kw_username v => Build_t i v p e d c l f
  | kw_password v => Build_t i n v e d c l f
  | kw_email v => Build_t i n p v d c l f
  | kw_default_preset v => Build_t i n p e v c l f
  | kw_created_time v => Build_t i n p e d v l f
  | kw_last_login_time v => Build_t i n p e d c v f
  | kw_preferences v => Build_t i n p e d c l v
  end.
End User.

Module Conversation.
Record t : Type := {
  id : Z;
  user_id : Z;
  title : option string;
  created_time : Z;
  updated_time : Z;
  hidden : bool }.

Inductive kwarg : Type :=
| kw_id (v : Z)
| kw_user_id (v : Z)
| kw_title (v : option string)
| kw_created_time (v : Z)
| kw_updated_time (v : Z)
| kw_hidden (v : bool).

Inductive attr : Type :=
| a_id | a_user_id | a_title | a_created_time | a_updated_time | a_hidden.

Definition attr_eq_dec (a b : attr) : {a = b} + {a <> b}.
Proof. decide equality. Defined.

Definition attr_of (k : kwarg) : attr :=
  match k with
  | kw_id _ => a_id | kw_user_id _ => a_user_id | kw_title _ => a_title
  | kw_created_time _ => a_created_time
  | kw_updated_time _ => a_updated_time | kw_hidden _ => a_hidden
  end.

Definition getattr (c : t) (a : attr) : kwarg :=
  match a with
  | a_id => kw_id (id c) | a_user_id => kw_user_id (user_id c)
  | a_title => kw_title (title c)
  | a_created_time => kw_created_time (created_time c)
  | a_updated_time => kw_updated_time (updated_time c)
  | a_hidden => kw_hidden (hidden c)
  end.

Definition setattr (c : t) (k : kwarg) : t :=
  let '(Build_t i u ti cr up h) := c in
  match k with
  | kw_id v => Build_t v u ti cr up h
  | kw_user_id v => Build_t i v ti cr up h
  | kw_title v => Build_t i u v cr up h
  | kw_created_time v => Build_t i u ti v up h
  | kw_updated_time v => Build_t i u ti cr v h
  | kw_hidden v => Build_t i u ti cr up v
  end.
End Conversation.

Module Message.
Record t : Type := {
  id : Z;
  conversation_id : Z;
  role : string;
  message : string;
  message_type : string;
  message_metadata : option string;
  model : string;
  provider : string;
  preset : string;
  created_time : Z }.

Inductive kwarg : Type :=
| kw_id (v : Z)
| kw_conversation_id (v : Z)
| kw_role (v : string)
| kw_message (v : string)
| kw_message_type (v : string)
| kw_message_metadata (v : option string)
| kw_model (v : string)
| kw_provider (v : string)
| kw_preset (v : string)
| kw_created_time (v : Z).

Inductive attr : Type :=
| a_id | a_conversation_id | a_role | a_message | a_message_type
| a_message_metadata | a_model | a_provider | a_preset | a_created_time.

Definition attr_eq_dec (a b : attr) : {a = b} + {a <> b}.
Proof. decide equality. Defined.

Definition attr_of (k : kwarg) : attr :=
  match k with
  | kw_id _ => a_id | kw_conversation_id _ => a_conversation_id
  | kw_role _ => a_role | kw_message _ => a_message
  | kw_message_type _ => a_message_type
  | kw_message_metadata _ => a_message_metadata
  | kw_model _ => a_model | kw_provider _ => a_provider
  | kw_preset _ => a_preset | kw_created_time _ => a_created_time
  end.

Definition getattr (m : t) (a : attr) : kwarg :=
  match a with
  | a_id => kw_id (id m)
  | a_conversation_id => kw_conversation_id (conversation_id m)
  | a_role => kw_role (role m) | a_message => kw_message (message m)
  | a_message_type => kw_message_type (message_type m)
  | a_message_metadata => kw_message_metadata (message_metadata m)
  | a_model => kw_model (model m) | a_provider => kw_provider (provider m)
  | a_preset => kw_preset (preset m)
  | a_created_time => kw_created_time (created_time m)
  end.

Definition setattr (m : t) (k : kwarg) : t :=
  let '(Build_t i c r b ty md mo pv ps cr) := m in
  match k with
  | kw_id v => Build_t v c r b ty md mo pv ps cr
  | kw_conversation_id v => Build_t i v r b ty md mo pv ps cr
  | kw_role v => Build_t i c v b ty md mo pv ps cr
  | kw_message v => Build_t i c r v ty md mo pv ps cr
  | kw_message_type v => Build_t i c r b v md mo pv ps cr
  | kw_message_metadata v => Build_t i c r b ty v mo pv ps cr
  | kw_model v => Build_t i c r b ty md v pv ps cr
  | kw_provider v => Build_t i c r b ty md mo v ps cr
  | kw_preset v => Build_t i c r b ty md mo pv v cr
  | kw_created_time v => Build_t i c r b ty md mo pv ps v
  end.
End Message.

(** The three tables, rows in insertion order. *)
Record DB : Type := mkDB {
  users : list User.t;
  conversations : list Conversation.t;
  messages : list Message.t }.

(** ** Storage constraints (checked by the database when a flush is
    committed): primary keys, [unique=True] columns, and the two foreign
    keys, enforced since [_set_sqlite_pragma] turns [foreign_keys] on. *)

Section Nodup.
Variable K : Type.
Variable eqb : K -> K -> bool.

Fixpoint nodupb (l : list K) : bool :=
  match l with
  | [] => true
  | x :: l' => negb (existsb (eqb x) l') && nodupb l'
  end.
End Nodup.
Arguments nodupb {K} eqb l.

Definition opt_list {A} (o : option A) : list A :=
  match o with Some a => [a] | None => [] end.

Definition user_exists (d : DB) (uid : Z) : bool :=
  existsb (fun u => User.id u =? uid) (users d).

Definition conversation_exists (d : DB) (cid : Z) : bool :=
  existsb (fun c => Conversation.id c =? cid) (conversations d).

(** [ForeignKey('user.id')] and [ForeignKey('conversation.id')]. *)
Definition refs_ok (d : DB) : bool :=
  forallb (fun c => user_exists d (Conversation.user_id c)) (conversations d)
  && forallb (fun m => conversation_exists d (Message.conversation_id m)) (messages d).

(** Primary keys and [unique=True] on [username] and [email]
    (several [NULL] emails are allowed). *)
Definition keys_ok (d : DB) : bool :=
  nodupb Z.eqb (map User.id (users d))
  && nodupb String.eqb (map User.username (users d))
  && nodupb String.eqb (flat_map (fun u => opt_list (User.email u)) (users d))
  && nodupb Z.eqb (map Conversation.id (conversations d))
  && nodupb Z.eqb (map Message.id (messages d)).

Definition constraints_ok (d : DB) : bool := keys_ok d && refs_ok d.

(** ** The session *)

(** [db]: the committed store; [work]: what the session sees, the store
    with the session's pending changes; [now]: the value
    [datetime.datetime.now()] returns; [commits]: commits so far. *)
Record Session : Type := mkSession {
  db : DB;
  work : DB;
  now : Z;
  commits : nat }.

(** Exceptions that propagate to the caller. *)
Inductive Error : Type :=
| IntegrityError
| InvalidRequestError
| AttributeError
| TypeError.

Inductive result (A : Type) : Type :=
| Ok (a : A)
| Err (e : Error).
Arguments Ok {A} a.
Arguments Err {A} e.

(** The state-and-error monad the [Manager] methods run in. *)
Definition M (A : Type) : Type := Session -> result (A * Session).

Definition ret {A} (a : A) : M A := fun s => Ok (a, s).

Definition bind {A B} (c : M A) (k : A -> M B) : M B :=
  fun s => match c s with
           | Ok (a, s') => k a s'
           | Err e => Err e
           end.

Definition raise {A} (e : Error) : M A := fun _ => Err e.

Definition lift {A} (r : result A) : M A :=
  fun s => match r with Ok a => Ok (a, s) | Err e => Err e end.

Notation "x <- c1 ;; c2" := (bind c1 (fun x => c2))
  (at level 61, c1 at next level, right associativity).

Definition get_session : M Session := fun s => Ok (s, s).

(** [datetime.datetime.now()] *)
Definition get_now : M Z := fun s => Ok (now s, s).

Definition modify_work (f : DB -> DB) : M unit :=
  fun s => Ok (tt, mkSession (db s) (f (work s)) (now s) (commits s)).

(** [session.commit()]: flush the pending changes; the database refuses a
    flush that breaks a constraint. *)
Definition session_commit : M unit :=
  fun s => if constraints_ok (work s)
           then Ok (tt, mkSession (work s) (work s) (now s) (S (commits s)))
           else Err IntegrityError.

(** [Session._autoflush]: [session.get] flushes the pending changes
    before it loads a row; the database refuses a flush that breaks a
    constraint. A flush commits nothing. *)
Definition autoflush : M unit :=
  fun s => if constraints_ok (work s) then Ok (tt, s) else Err IntegrityError.

(** ** The legacy [Query] builder *)

Section Sort.
Variable A : Type.
Variable le : A -> A -> bool.

Fixpoint insert (x : A) (l : list A) : list A :=
  match l with
  | [] => [x]
  | y :: l' => if le x y then x :: l else y :: insert x l'
  end.

Fixpoint sort (l : list A) : list A :=
  match l with
  | [] => []
  | x :: l' => insert x (sort l')
  end.
End Sort.
Arguments insert {A} le x l.
Arguments sort {A} le l.

Record Query (A : Type) : Type := mkQuery {
  q_rows : list A;
  q_filters : list (A -> bool);
  q_order : option (A -> A -> bool);
  q_limit : option nat;
  q_offset : option nat }.
Arguments mkQuery {A}.
Arguments q_rows {A}.
Arguments q_filters {A}.
Arguments q_order {A}.
Arguments q_limit {A}.
Arguments q_offset {A}.

(** [session.query(Table)] *)
Definition query_of {A} (rows : list A) : Query A :=
  mkQuery rows [] None None None.

(** [Query.filter]: refused once a LIMIT or OFFSET is applied
    ([Query._no_limit_offset]). *)
Definition q_filter {A} (p : A -> bool) (q : Query A) : result (Query A) :=
  match q_limit q, q_offset q with
  | None, None =>
      Ok (mkQuery (q_rows q) (q_filters q ++ [p]) (q_order q) None None)
  | _, _ => Err InvalidRequestError
  end.

Definition q_order_by {A} (le : A -> A -> bool) (q : Query A) : Query A :=
  mkQuery (q_rows q) (q_filters q) (Some le) (q_limit q) (q_offset q).

Definition q_set_limit {A} (n : nat) (q : Query A) : Query A :=
  mkQuery (q_rows q) (q_filters q) (q_order q) (Some n) (q_offset q).

Definition q_set_offset {A} (n : nat) (q : Query A) : Query A :=
  mkQuery (q_rows q) (q_filters q) (q_order q) (q_limit q) (Some n).

(** [Query.all()]: SELECT ... WHERE ... ORDER BY ... LIMIT ... OFFSET ...;
    OFFSET skips rows first, LIMIT bounds what is left. *)
Definition apply_offset {A} (offset : option nat) (l : list A) : list A :=
  match offset with Some o => skipn o l | None => l end.

Definition apply_limit {A} (limit : option nat) (l : list A) : list A :=
  match limit with Some n => firstn n l | None => l end.

Definition q_all {A} (q : Query A) : list A :=
  let rows := filter (fun r => forallb (fun p => p r) (q_filters q)) (q_rows q) in
  let ordered := match q_order q with Some le => sort le rows | None => rows end in
  apply_limit (q_limit q) (apply_offset (q_offset q) ordered).

(** [Query.first()] *)
Definition q_first {A} (q : Query A) : option A :=
  match q_all (q_set_limit 1 q) with [] => None | r :: _ => Some r end.

(** [Manager._apply_limit_offset] *)
Definition _apply_limit_offset {A} (q : Query A) (limit offset : option nat) : Query A :=
  let q := match limit with Some l => q_set_limit l q | None => q end in
  match offset with Some o => q_set_offset o q | None => q end.

(** ** Rows of the session *)

Definition set_users (d : DB) (l : list User.t) : DB :=
  mkDB l (conversations d) (messages d).
Definition set_conversations (d : DB) (l : list Conversation.t) : DB :=
  mkDB (users d) l (messages d).
Definition set_messages (d : DB) (l : list Message.t) : DB :=
  mkDB (users d) (conversations d) l.

(** The id an [autoincrement] integer primary key receives on insert
    (SQLite: one more than the largest rowid, 1 in an empty table). *)
Definition next_id (ids : list Z) : Z := fold_right Z.max 0 ids + 1.

(** The UPDATE a flush emits for attributes set on the persistent object
    whose primary key was [old]. *)
Definition put_user (old : Z) (u : User.t) (d : DB) : DB :=
  set_users d (map (fun x => if User.id x =? old then u else x) (users d)).
Definition put_conversation (old : Z) (c : Conversation.t) (d : DB) : DB :=
  set_conversations d
    (map (fun x => if Conversation.id x =? old then c else x) (conversations d)).
Definition put_message (old : Z) (m : Message.t) (d : DB) : DB :=
  set_messages d (map (fun x => if Message.id x =? old then m else x) (messages d)).

(** The DELETE a flush emits, with [ondelete='CASCADE'] on
    [Conversation.user_id] and [Message.conversation_id] carried out by the
    database ([passive_deletes=True]: the ORM leaves dependents to it). *)
Definition delete_conversation_rows (cid : Z) (d : DB) : DB :=
  mkDB (users d)
       (filter (fun c => negb (Conversation.id c =? cid)) (conversations d))
       (filter (fun m => negb (Message.conversation_id m =? cid)) (messages d)).

Definition delete_user_rows (uid : Z) (d : DB) : DB :=
  let cids := map Conversation.id
                (filter (fun c => Conversation.user_id c =? uid) (conversations d)) in
  mkDB (filter (fun u => negb (User.id u =? uid)) (users d))
       (filter (fun c => negb (Conversation.user_id c =? uid)) (conversations d))
       (filter (fun m => negb (existsb (Z.eqb (Message.conversation_id m)) cids))
               (messages d)).

Definition delete_message_rows (mid : Z) (d : DB) : DB :=
  set_messages d (filter (fun m => negb (Message.id m =? mid)) (messages d)).

Definition message_exists (d : DB) (mid : Z) : bool :=
  existsb (fun m => Message.id m =? mid) (messages d).

(** ** Keyword-argument updates: [for key, value in kwargs.items():
    setattr(obj, key, value)] *)

Section Kwargs.
Variables T attr kwarg : Type.
Variable attr_of : kwarg -> attr.
Variable attr_eq_dec : forall a b : attr, {a = b} + {a <> b}.
Variable getattr : T -> attr -> kwarg.
Variable setattr : T -> kwarg -> T.

Definition set_kwargs (x : T) (kwargs : list kwarg) : T := fold_left setattr kwargs x.

(** The value [kwargs] gives to the attribute [a], if it names it. *)
Definition kwarg_for (kwargs : list kwarg) (a : attr) : option kwarg :=
  find (fun k => if attr_eq_dec (attr_of k) a then true else false) kwargs.
End Kwargs.
Arguments set_kwargs {T kwarg} setattr x kwargs.
Arguments kwarg_for {attr kwarg} attr_of attr_eq_dec kwargs a.

(** ** [Manager] *)

Definition username_order (a b : User.t) : bool :=
  String.leb (User.username a) (User.username b).
Definition conversation_id_asc (a b : Conversation.t) : bool :=
  Conversation.id a <=? Conversation.id b.
Definition conversation_id_desc (a b : Conversation.t) : bool :=
  Conversation.id b <=? Conversation.id a.
Definition message_id_asc (a b : Message.t) : bool :=
  Message.id a <=? Message.id b.
Definition message_id_desc (a b : Message.t) : bool :=
  Message.id b <=? Message.id a.

Definition orm_get_users (limit offset : option nat) : M (list User.t) :=
  s <- get_session ;;
  let query := q_order_by username_order (query_of (users (work s))) in
  let query := _apply_limit_offset query limit offset in
  ret (q_all query).

Definition orm_get_conversations (user : User.t) (limit offset : option nat)
    (order_desc : bool) : M (list Conversation.t) :=
  s <- get_session ;;
  query <- (if order_desc
            then q <- lift (q_filter (fun c => Conversation.user_id c =? User.id user)
                                     (query_of (conversations (work s)))) ;;
                 ret (q_order_by conversation_id_desc q)
            else ret (q_order_by conversation_id_asc (query_of (conversations (work s))))) ;;
  let query := _apply_limit_offset query limit offset in
  ret (q_all query).

(** [target_id] is [None] or an int; [if target_id:] is false on [0]. *)
Definition orm_get_messages (conversation : Conversation.t) (limit offset : option nat)
    (target_id : option Z) : M (list Message.t) :=
  s <- get_session ;;
  query <- lift (q_filter (fun m => Message.conversation_id m =? Conversation.id conversation)
                          (query_of (messages (work s)))) ;;
  let query := q_order_by message_id_asc query in
  let query := _apply_limit_offset query limit offset in
  query <- (match target_id with
            | Some n => if n =? 0 then ret query
                        else lift (q_filter (fun m => Message.id m <=? n) query)
            | None => ret query
            end) ;;
  ret (q_all query).

Definition orm_get_last_message (conversation : Conversation.t) : M (option Message.t) :=
  s <- get_session ;;
  query <- lift (q_filter (fun m => Message.conversation_id m =? Conversation.id conversation)
                          (query_of (messages (work s)))) ;;
  let query := q_set_limit 1 (q_order_by message_id_desc query) in
  ret (q_first query).

(** [session.get(Table, id)] *)
Definition orm_get_user (user_id : Z) : M (option User.t) :=
  _ <- autoflush ;;
  s <- get_session ;; ret (find (fun u => User.id u =? user_id) (users (work s))).
Definition orm_get_conversation (conversation_id : Z) : M (option Conversation.t) :=
  _ <- autoflush ;;
  s <- get_session ;;
  ret (find (fun c => Conversation.id c =? conversation_id) (conversations (work s))).
Definition orm_get_message (message_id : Z) : M (option Message.t) :=
  _ <- autoflush ;;
  s <- get_session ;; ret (find (fun m => Message.id m =? message_id) (messages (work s))).

(** The primary key is drawn on [session.add] here rather than at the
    flush inside [commit]; nothing reads the table in between. *)
Definition orm_add_user (username : string) (password email : option string)
    (default_preset : string) (preferences : Json) : M User.t :=
  let preferences := if json_truthy preferences then preferences else JObj [] in
  now <- get_now ;;
  s <- get_session ;;
  let user := {| User.id := next_id (map User.id (users (work s)));
                 User.username := username; User.password := password;
                 User.email := email; User.default_preset := default_preset;
                 User.created_time := now; User.last_login_time := Some now;
                 User.preferences := preferences |} in
  _ <- modify_work (fun d => set_users d (users d ++ [user])) ;;
  _ <- session_commit ;;
  ret user.

Definition orm_add_conversation (user : User.t) (title : option string) (hidden : bool)
    : M Conversation.t :=
  now <- get_now ;;
  s <- get_session ;;
  let conversation :=
    {| Conversation.id := next_id (map Conversation.id (conversations (work s)));
       Conversation.user_id := User.id user; Conversation.title := title;
       Conversation.created_time := now; Conversation.updated_time := now;
       Conversation.hidden := false |} in
  _ <- modify_work (fun d => set_conversations d (conversations d ++ [conversation])) ;;
  _ <- session_commit ;;
  ret conversation.

Definition orm_add_message (conversation : Conversation.t)
    (role message message_type : string) (message_metadata : option string)
    (provider model preset : string) : M Message.t :=
  now <- get_now ;;
  s <- get_session ;;
  let message :=
    {| Message.id := next_id (map Message.id (messages (work s)));
       Message.conversation_id := Conversation.id conversation;
       Message.role := role; Message.message := message;
       Message.message_type := message_type;
       Message.message_metadata := message_metadata;
       Message.provider := provider; Message.model := model;
       Message.preset := preset; Message.created_time := now |} in
  _ <- modify_work (fun d => set_messages d (messages d ++ [message])) ;;
  conversation_update <- orm_get_conversation (Conversation.id conversation) ;;
  _ <- (match conversation_update with
        | None => raise AttributeError
        | Some c => modify_work (put_conversation (Conversation.id c)
                                   (Conversation.setattr c (Conversation.kw_updated_time now)))
        end) ;;
  _ <- session_commit ;;
  ret message.

Definition orm_edit_user (user : User.t) (kwargs : list User.kwarg) : M User.t :=
  let user' := set_kwargs User.setattr user kwargs in
  _ <- modify_work (put_user (User.id user) user') ;;
  _ <- session_commit ;;
  ret user'.

Definition orm_edit_conversation (conversation : Conversation.t)
    (kwargs : list Conversation.kwarg) : M Conversation.t :=
  let conversation' := set_kwargs Conversation.setattr conversation kwargs in
  _ <- modify_work (put_conversation (Conversation.id conversation) conversation') ;;
  _ <- session_commit ;;
  ret conversation'.

(** The positional parameter is named [message]: a [message=] keyword
    argument binds it a second time, and the call raises [TypeError]
    before the body runs. *)
Definition orm_edit_message (message : Message.t) (kwargs : list Message.kwarg)
    : M Message.t :=
  match kwarg_for Message.attr_of Message.attr_eq_dec kwargs Message.a_message with
  | Some _ => raise TypeError
  | None =>
      let message' := set_kwargs Message.setattr message kwargs in
      _ <- modify_work (put_message (Message.id message) message') ;;
      _ <- session_commit ;;
      ret message'
  end.

(** [session.delete(obj)] refuses an object that is not persistent. *)
Definition orm_delete_user (user : User.t) : M User.t :=
  s <- get_session ;;
  if user_exists (work s) (User.id user) then
    _ <- modify_work (delete_user_rows (User.id user)) ;;
    _ <- session_commit ;;
    ret user
  else raise InvalidRequestError.

(** No [return] statement: the call evaluates to [None]. *)
Definition orm_delete_conversation (conversation : Conversation.t)
    : M (option Conversation.t) :=
  s <- get_session ;;
  if conversation_exists (work s) (Conversation.id conversation) then
    _ <- modify_work (delete_conversation_rows (Conversation.id conversation)) ;;
    _ <- session_commit ;;
    ret None
  else raise InvalidRequestError.

Definition orm_delete_message (message : Message.t) : M (option Message.t) :=
  s <- get_session ;;
  if message_exists (work s) (Message.id message) then
    _ <- modify_work (delete_message_rows (Message.id message)) ;;
    _ <- session_commit ;;
    ret None
  else raise InvalidRequestError.

(** ** A sample store: two users, a conversation each, three messages *)

Definition sample_user (i : Z) (name : string) : User.t :=
  {| User.id := i; User.username := name; User.password := None;
     User.email := None; User.default_preset := EmptyString;
     User.created_time := 0; User.last_login_time := Some 0;
     User.preferences := JObj [] |}.

Definition sample_conversation (i uid : Z) : Conversation.t :=
  {| Conversation.id := i; Conversation.user_id := uid; Conversation.title := None;
     Conversation.created_time := 0; Conversation.updated_time := 0;
     Conversation.hidden := false |}.

Definition sample_message (i cid : Z) : Message.t :=
  {| Message.id := i; Message.conversation_id := cid; Message.role := "user";
     Message.message := "hi"; Message.message_type := "content";
     Message.message_metadata := None; Message.model := "m";
     Message.provider := "p"; Message.preset := EmptyString;
     Message.created_time := 0 |}.

Definition sample_db : DB :=
  mkDB [sample_user 1 "bob"; sample_user 2 "alice"]
       [sample_conversation 1 1; sample_conversation 2 2]
       [sample_message 1 1; sample_message 2 2; sample_message 3 1].

Definition sample_session : Session := mkSession sample_db sample_db 100 0.

Example sample_constraints : constraints_ok sample_db = true.
Proof. reflexivity. Qed.

Example sample_get_users :
  orm_get_users None None sample_session
  = Ok ([sample_user 2 "alice"; sample_user 1 "bob"], sample_session).
Proof. reflexivity. Qed.

Example sample_get_messages :
  orm_get_messages (sample_conversation 1 1) None None (Some 2) sample_session
  = Ok ([sample_message 1 1], sample_session).
Proof. reflexivity. Qed.

Example sample_get_messages_limit :
  orm_get_messages (sample_conversation 1 1) (Some 5%nat) None (Some 2) sample_session
  = Err InvalidRequestError.
Proof. reflexivity. Qed.

Example sample_get_last :
  orm_get_last_message (sample_conversation 1 1) sample_session
  = Ok (Some (sample_message 3 1), sample_session).
Proof. reflexivity. Qed.

Example sample_get_conversations_desc :
  orm_get_conversations (sample_user 1 "bob") None None true sample_session
  = Ok ([sample_conversation 1 1], sample_session).
Proof. reflexivity. Qed.

(** * Proofs *)

(** ** Sorting *)

Section SortProofs.
Variable A : Type.
Variable le : A -> A -> bool.

Lemma insert_perm (x : A) (l : list A) : Permutation (x :: l) (insert le x l).
Proof.
  induction l as [|y l IH]; simpl; [reflexivity|].
  destruct (le x y); [reflexivity|].
  eapply perm_trans; [apply perm_swap|]. constructor. exact IH.
Qed.

Lemma sort_perm (l : list A) : Permutation l (sort le l).
Proof.
  induction l as [|x l IH]; simpl; [reflexivity|].
  eapply perm_trans; [|apply insert_perm]. constructor. exact IH.
Qed.

Hypothesis le_total : forall a b, le a b = false -> le b a = true.

Let R := fun a b => le a b = true.

Lemma insert_sorted (x : A) (l : list A) : Sorted R l -> Sorted R (insert le x l).
Proof.
  induction l as [|y l IH]; simpl; intros Hs.
  - repeat constructor.
  - destruct (le x y) eqn:Hxy.
    + constructor; [exact Hs | constructor; exact Hxy].
    + apply Sorted_inv in Hs as [Hs Hhd].
      constructor; [apply IH, Hs|].
      destruct l as [|z l]; simpl.
      * constructor. apply le_total, Hxy.
      * apply HdRel_inv in Hhd.
        destruct (le x z); constructor; [apply le_total, Hxy | exact Hhd].
Qed.

Lemma sort_sorted (l : list A) : Sorted R (sort le l).
Proof. induction l; simpl; [constructor | apply insert_sorted; assumption]. Qed.
End SortProofs.

Section Windows.
Variable A : Type.

Lemma in_skipn_in (n : nat) (l : list A) x : In x (skipn n l) -> In x l.
Proof. intros H. rewrite <- (firstn_skipn n l). apply in_or_app. right. exact H. Qed.

Lemma in_firstn_in (n : nat) (l : list A) x : In x (firstn n l) -> In x l.
Proof. intros H. rewrite <- (firstn_skipn n l). apply in_or_app. left. exact H. Qed.

Lemma in_window o n (l : list A) x : In x (apply_limit n (apply_offset o l)) -> In x l.
Proof.
  destruct o, n; simpl; intros H; auto;
    repeat (apply in_skipn_in in H || apply in_firstn_in in H); exact H.
Qed.

Variable R : A -> A -> Prop.

Lemma sorted_skipn (n : nat) (l : list A) : Sorted R l -> Sorted R (skipn n l).
Proof.
  revert l. induction n as [|n IH]; intros [|x l] Hs; simpl; auto.
  apply Sorted_inv in Hs as [Hs _]. apply IH, Hs.
Qed.

Lemma sorted_firstn (n : nat) (l : list A) : Sorted R l -> Sorted R (firstn n l).
Proof.
  revert l. induction n as [|n IH]; intros [|x l] Hs; simpl; auto.
  apply Sorted_inv in Hs as [Hs Hhd]. constructor; [apply IH, Hs|].
  destruct n, l; simpl; constructor. apply HdRel_inv in Hhd. exact Hhd.
Qed.

Lemma sorted_window o n (l : list A) : Sorted R l -> Sorted R (apply_limit n (apply_offset o l)).
Proof.
  intros Hs. destruct o, n; simpl; auto using sorted_skipn, sorted_firstn.
Qed.

Lemma sorted_weaken (R' : A -> A -> Prop) (l : list A) :
  (forall a b, R a b -> R' a b) -> Sorted R l -> Sorted R' l.
Proof.
  intros Himp Hs. induction Hs as [|x l Hs IH Hhd]; constructor; auto.
  destruct Hhd; constructor; auto.
Qed.
End Windows.

Lemma Z_leb_total (a b : Z) : (a <=? b) = false -> (b <=? a) = true.
Proof. intros H. apply Z.leb_gt in H. apply Z.leb_le. lia. Qed.

Lemma string_leb_total (a b : string) :
  String.leb a b = false -> String.leb b a = true.
Proof.
  unfold String.leb. rewrite (String.compare_antisym b a).
  destruct (String.compare a b); simpl; congruence.
Qed.

Lemma username_order_total a b : username_order a b = false -> username_order b a = true.
Proof. apply string_leb_total. Qed.

Lemma message_id_asc_total a b : message_id_asc a b = false -> message_id_asc b a = true.
Proof. apply Z_leb_total. Qed.

Lemma message_id_desc_total a b : message_id_desc a b = false -> message_id_desc b a = true.
Proof. apply Z_leb_total. Qed.

Lemma conversation_id_desc_total a b :
  conversation_id_desc a b = false -> conversation_id_desc b a = true.
Proof. apply Z_leb_total. Qed.

Lemma filter_all_true {A} (l : list A) : filter (fun _ => true) l = l.
Proof. induction l; simpl; congruence. Qed.

(** ** Reading *)

(** C9: [orm_get_users(limit, offset)] is the window [offset], [limit] of
    the stored Users ordered by username (SQLite's binary collation). *)
Theorem orm_get_users_ordered (s : Session) (limit offset : option nat) :
  exists ordered,
    Permutation (users (work s)) ordered
    /\ Sorted (fun a b => String.leb (User.username a) (User.username b) = true) ordered
    /\ orm_get_users limit offset s
       = Ok (apply_limit limit (apply_offset offset ordered), s).
Proof.
  exists (sort username_order (users (work s))). split; [|split].
  - apply sort_perm.
  - apply (sort_sorted _ username_order username_order_total).
  - unfold orm_get_users, bind, get_session, ret, q_all.
    destruct limit, offset; simpl; rewrite filter_all_true; reflexivity.
Qed.

(** What the queries of [orm_get_messages] and [orm_get_last_message]
    read: the rows passing the filters, in the query's order. *)
Lemma q_all_sorted_in {A} (q : Query A) (le : A -> A -> bool) :
  q_order q = Some le ->
  (forall a b, le a b = false -> le b a = true) ->
  Sorted (fun a b => le a b = true) (q_all q)
  /\ forall x, In x (q_all q) -> In x (q_rows q) /\ forallb (fun p => p x) (q_filters q) = true.
Proof.
  intros Ho Htot. unfold q_all. rewrite Ho. split.
  - apply sorted_window, sort_sorted, Htot.
  - intros x Hx. apply in_window in Hx.
    apply (Permutation_in x (Permutation_sym (sort_perm _ le _))) in Hx.
    apply filter_In in Hx. exact Hx.
Qed.

(** When [orm_get_messages] with [target_id = N], [N] positive, returns
    (no [limit] and no [offset]),
    every Message it returns is a stored Message of the conversation with
    id at most [N], in ascending id order; the session is unchanged. *)
Theorem orm_get_messages_target_id (s s' : Session) (conversation : Conversation.t)
    (limit offset : option nat) (N : Z) (r : list Message.t) :
  0 < N ->
  orm_get_messages conversation limit offset (Some N) s = Ok (r, s') ->
  s' = s
  /\ (forall m, In m r ->
        In m (messages (work s))
        /\ Message.conversation_id m = Conversation.id conversation
        /\ Message.id m <= N)
  /\ Sorted (fun a b => Message.id a <= Message.id b) r.
Proof.
  intros HN Hrun.
  unfold orm_get_messages, bind, get_session, lift, ret in Hrun. simpl in Hrun.
  replace (N =? 0) with false in Hrun by (symmetry; apply Z.eqb_neq; lia).
  destruct limit, offset; simpl in Hrun; try discriminate.
  injection Hrun as <- <-.
  set (q := mkQuery (messages (work s))
              [fun m => Message.conversation_id m =? Conversation.id conversation;
               fun m => Message.id m <=? N]
              (Some message_id_asc) None None).
  destruct (q_all_sorted_in q message_id_asc eq_refl message_id_asc_total) as [Hs Hin].
  split; [reflexivity | split].
  - intros m Hm. destruct (Hin m Hm) as [Hrow Hf]. simpl in Hf.
    apply andb_prop in Hf as [H1 Hf]. apply andb_prop in Hf as [H2 _].
    apply Z.eqb_eq in H1. apply Z.leb_le in H2. auto.
  - eapply sorted_weaken; [|exact Hs].
    intros a b H. apply Z.leb_le in H. exact H.
Qed.

(** C8: [orm_get_last_message(conversation)] returns the conversation's
    Message with the greatest id, and [None] when it has none. *)
Theorem orm_get_last_message_greatest (s : Session) (conversation : Conversation.t) :
  exists r, orm_get_last_message conversation s = Ok (r, s)
  /\ match r with
     | Some m =>
         In m (messages (work s))
         /\ Message.conversation_id m = Conversation.id conversation
         /\ forall m', In m' (messages (work s)) ->
              Message.conversation_id m' = Conversation.id conversation ->
              Message.id m' <= Message.id m
     | None =>
         forall m', In m' (messages (work s)) ->
           Message.conversation_id m' <> Conversation.id conversation
     end.
Proof.
  set (p := fun m => Message.conversation_id m =? Conversation.id conversation).
  set (rows := sort message_id_desc (filter (fun m => p m && true) (messages (work s)))).
  assert (Hperm : Permutation (filter (fun m => p m && true) (messages (work s))) rows)
    by apply sort_perm.
  assert (Hsort : StronglySorted (fun a b => message_id_desc a b = true) rows).
  { apply Sorted_StronglySorted.
    - intros a b c Hab Hbc. unfold message_id_desc in *.
      apply Z.leb_le in Hab, Hbc. apply Z.leb_le. lia.
    - apply sort_sorted, message_id_desc_total. }
  assert (Hrun : orm_get_last_message conversation s
                 = Ok (match rows with [] => None | m :: _ => Some m end, s)).
  { unfold orm_get_last_message, bind, get_session, lift, ret, q_first, q_all. simpl.
    unfold rows, p. destruct (sort _ _); reflexivity. }
  eexists; split; [exact Hrun|].
  destruct rows as [|m rest] eqn:Hrows.
  - intros m' Hin Hc. apply Permutation_sym, Permutation_nil in Hperm.
    assert (In m' (filter (fun m => p m && true) (messages (work s)))) as Hf.
    { apply filter_In. split; [exact Hin|]. unfold p. rewrite Hc, Z.eqb_refl. reflexivity. }
    rewrite Hperm in Hf. contradiction.
  - assert (Hm : In m (filter (fun m => p m && true) (messages (work s)))).
    { apply (Permutation_in m (Permutation_sym Hperm)). left. reflexivity. }
    apply filter_In in Hm as [Hm Hpm]. unfold p in Hpm.
    rewrite andb_true_r, Z.eqb_eq in Hpm.
    split; [exact Hm | split; [exact Hpm|]].
    intros m' Hin Hc.
    assert (Hf : In m' (m :: rest)).
    { apply (Permutation_in m' Hperm). apply filter_In. split; [exact Hin|].
      unfold p. rewrite Hc, Z.eqb_refl. reflexivity. }
    apply StronglySorted_inv in Hsort as [_ Hall].
    destruct Hf as [<-|Hf]; [lia|].
    rewrite Forall_forall in Hall. specialize (Hall m' Hf).
    unfold message_id_desc in Hall. apply Z.leb_le in Hall. exact Hall.
Qed.

(** The [order_desc=True] branch keeps the user's Conversations only, in
    descending id order. *)
Lemma orm_get_conversations_desc_spec (s : Session) (user : User.t)
    (limit offset : option nat) :
  exists r, orm_get_conversations user limit offset true s = Ok (r, s)
  /\ (forall c, In c r -> In c (conversations (work s))
                          /\ Conversation.user_id c = User.id user)
  /\ Sorted (fun a b => Conversation.id b <= Conversation.id a) r.
Proof.
  set (q := _apply_limit_offset
              (q_order_by conversation_id_desc
                 (mkQuery (conversations (work s))
                    [fun c => Conversation.user_id c =? User.id user] None None None))
              limit offset).
  exists (q_all q). split.
  - unfold orm_get_conversations, bind, get_session, lift, ret. reflexivity.
  - assert (Ho : q_order q = Some conversation_id_desc) by (destruct limit, offset; reflexivity).
    destruct (q_all_sorted_in q _ Ho conversation_id_desc_total) as [Hs Hin].
    assert (Hrows : q_rows q = conversations (work s)) by (destruct limit, offset; reflexivity).
    assert (Hf : q_filters q = [fun c => Conversation.user_id c =? User.id user])
      by (destruct limit, offset; reflexivity).
    split.
    + intros c Hc. destruct (Hin c Hc) as [Hr Hp]. rewrite Hrows in Hr.
      rewrite Hf in Hp. simpl in Hp. rewrite andb_true_r, Z.eqb_eq in Hp. auto.
    + eapply sorted_weaken; [|exact Hs]. intros a b H. apply Z.leb_le in H. exact H.
Qed.

(** C1 (failing input): with [order_desc=False] the query has no
    [user_id] filter, so the listing for user 1 contains user 2's
    Conversation. *)
Theorem orm_get_conversations_asc_unfiltered :
  orm_get_conversations (sample_user 1 "bob") None None false sample_session
  = Ok ([sample_conversation 1 1; sample_conversation 2 2], sample_session)
  /\ Conversation.user_id (sample_conversation 2 2) <> User.id (sample_user 1 "bob").
Proof. split; [reflexivity | discriminate]. Qed.

(** C2 (failing input): the [target_id] filter is added after
    [_apply_limit_offset], and [Query.filter] refuses a query that has a
    LIMIT, so [orm_get_messages] with [limit=1] and [target_id=2] raises
    [InvalidRequestError] instead of returning the capped Messages; and
    [if target_id:] skips the cap for [target_id=0], returning Messages
    with ids above 0. *)
Theorem orm_get_messages_target_with_limit :
  orm_get_messages (sample_conversation 1 1) (Some 1%nat) None (Some 2) sample_session
  = Err InvalidRequestError
  /\ orm_get_messages (sample_conversation 1 1) None None (Some 0) sample_session
     = Ok ([sample_message 1 1; sample_message 3 1], sample_session)
  /\ Message.id (sample_message 3 1) > 0.
Proof. split; [reflexivity | split; [reflexivity | simpl; lia]]. Qed.


(** ** Key and reference lemmas *)

Inductive sublist {A : Type} : list A -> list A -> Prop :=
| sublist_nil : sublist [] []
| sublist_skip x l1 l2 : sublist l1 l2 -> sublist l1 (x :: l2)
| sublist_keep x l1 l2 : sublist l1 l2 -> sublist (x :: l1) (x :: l2).

Create HintDb rows.
#[local] Hint Constructors sublist : rows.

Lemma sublist_refl {A} (l : list A) : sublist l l.
Proof. induction l; auto with rows. Qed.

Lemma sublist_app {A} (l1 l2 l3 l4 : list A) :
  sublist l1 l2 -> sublist l3 l4 -> sublist (l1 ++ l3) (l2 ++ l4).
Proof. induction 1; simpl; auto with rows. Qed.

Lemma sublist_app_r {A} (l1 l2 l3 : list A) : sublist l1 l2 -> sublist l1 (l3 ++ l2).
Proof. intros H. induction l3; simpl; auto with rows. Qed.

Section SublistProofs.
Variables A B : Type.

Lemma sublist_filter (p : A -> bool) (l : list A) : sublist (filter p l) l.
Proof. induction l as [|x l IH]; simpl; [constructor|]. destruct (p x); auto with rows. Qed.

Lemma sublist_in (l1 l2 : list A) x : sublist l1 l2 -> In x l1 -> In x l2.
Proof. induction 1; simpl; intuition. Qed.

Lemma sublist_flat_map (k : A -> list B) (l1 l2 : list A) :
  sublist l1 l2 -> sublist (flat_map k l1) (flat_map k l2).
Proof.
  induction 1 as [|x l1 l2 H IH|x l1 l2 H IH]; simpl.
  - apply sublist_refl.
  - apply sublist_app_r. exact IH.
  - apply sublist_app; [apply sublist_refl | exact IH].
Qed.

Lemma sublist_map (f : A -> B) (l1 l2 : list A) :
  sublist l1 l2 -> sublist (map f l1) (map f l2).
Proof. induction 1; simpl; auto with rows. Qed.

Variable eqb : A -> A -> bool.

Lemma nodupb_sublist (l1 l2 : list A) :
  sublist l1 l2 -> nodupb eqb l2 = true -> nodupb eqb l1 = true.
Proof.
  induction 1 as [|x l1 l2 H IH|x l1 l2 H IH]; simpl; auto.
  - intros Hn. apply andb_prop in Hn as [_ Hn]. auto.
  - intros Hn. apply andb_prop in Hn as [Hx Hn]. rewrite (IH Hn), andb_true_r.
    destruct (existsb (eqb x) l1) eqn:He; [|reflexivity].
    apply existsb_exists in He as [y [Hy Hxy]].
    assert (existsb (eqb x) l2 = true) as He2
      by (apply existsb_exists; exists y; split; [apply (sublist_in l1) | ]; assumption).
    rewrite He2 in Hx. discriminate.
Qed.

Lemma nodupb_snoc (l : list A) (x : A) :
  nodupb eqb l = true -> (forall y, In y l -> eqb y x = false) -> nodupb eqb (l ++ [x]) = true.
Proof.
  induction l as [|y l IH]; simpl; intros Hn Hf; [reflexivity|].
  apply andb_prop in Hn as [Hy Hn]. rewrite IH; auto. rewrite andb_true_r.
  rewrite existsb_app. simpl. rewrite (Hf y (or_introl eq_refl)). simpl.
  rewrite orb_false_r. exact Hy.
Qed.
End SublistProofs.

Lemma next_id_gt (ids : list Z) (y : Z) : In y ids -> y < next_id ids.
Proof.
  unfold next_id. induction ids as [|x ids IH]; simpl; [contradiction|].
  intros [<-|H]; [lia|]. specialize (IH H). lia.
Qed.

Lemma next_id_fresh (ids : list Z) (y : Z) : In y ids -> (y =? next_id ids) = false.
Proof. intros H. apply Z.eqb_neq. pose proof (next_id_gt ids y H). lia. Qed.

Lemma find_snoc_fresh {A} (f : A -> bool) (l : list A) (x : A) :
  (forall y, In y l -> f y = false) -> f x = true -> find f (l ++ [x]) = Some x.
Proof.
  induction l as [|y l IH]; simpl; intros Hf Hx.
  - rewrite Hx. reflexivity.
  - rewrite (Hf y (or_introl eq_refl)). apply IH; auto.
Qed.

Section Put.
Variable A : Type.
Variable key : A -> Z.

Lemma put_keys (l : list A) (old : Z) (r : A) :
  key r = old -> map key (map (fun x => if key x =? old then r else x) l) = map key l.
Proof.
  intros Hr. induction l as [|x l IH]; simpl; [reflexivity|].
  rewrite IH. destruct (key x =? old) eqn:E; [apply Z.eqb_eq in E; congruence | reflexivity].
Qed.

Lemma put_in (l : list A) (old : Z) (r : A) :
  existsb (fun x => key x =? old) l = true ->
  In r (map (fun x => if key x =? old then r else x) l).
Proof.
  intros He. apply existsb_exists in He as [x [Hx Hk]].
  apply in_map_iff. exists x. rewrite Hk. auto.
Qed.

Lemma put_in_inv (l : list A) (old : Z) (r y : A) :
  In y (map (fun x => if key x =? old then r else x) l) -> y = r \/ In y l.
Proof.
  intros Hy. apply in_map_iff in Hy as [x [<- Hx]].
  destruct (key x =? old); auto.
Qed.
End Put.

Lemma existsb_key_map {A} (key : A -> Z) (l : list A) (z : Z) :
  existsb (fun x => key x =? z) l = existsb (fun k => k =? z) (map key l).
Proof. induction l; simpl; congruence. Qed.

Lemma constraints_ok_split (d : DB) :
  constraints_ok d = true <-> keys_ok d = true /\ refs_ok d = true.
Proof. unfold constraints_ok. apply andb_true_iff. Qed.

(** A commit that succeeds leaves a store meeting every constraint. *)
Lemma session_commit_ok (s s' : Session) (u : unit) :
  session_commit s = Ok (u, s') ->
  constraints_ok (db s') = true /\ db s' = work s /\ work s' = work s
  /\ commits s' = S (commits s) /\ now s' = now s.
Proof.
  unfold session_commit. destruct (constraints_ok (work s)) eqn:E; [|discriminate].
  intros H. injection H as _ <-. simpl. auto.
Qed.

(** ** Adding rows *)

Ltac run_op H :=
  unfold bind, get_now, get_session, modify_work, ret, raise, lift in H; simpl in H;
  unfold session_commit in H; simpl in H.

(** C10: whatever [hidden] is passed, the Conversation
    [orm_add_conversation] creates and returns is not hidden. *)
Theorem orm_add_conversation_not_hidden (s : Session) (user : User.t)
    (title : option string) (hidden : bool) :
  match orm_add_conversation user title hidden s with
  | Ok (c, s') => Conversation.hidden c = false /\ In c (conversations (db s'))
  | Err _ => True
  end.
Proof.
  unfold orm_add_conversation, bind, get_now, get_session, modify_work, ret. simpl.
  unfold session_commit. simpl.
  destruct (constraints_ok _); simpl; [|exact I].
  split; [reflexivity|]. apply in_or_app. right. left. reflexivity.
Qed.

(** C5 (as the code has it): the User [orm_get_user] returns for the new
    id has the username, password, email and default_preset given to
    [orm_add_user], and the given preferences when they are truthy, [{}]
    when they are falsy ([preferences or {}]). *)
Theorem orm_add_user_get_user (s s' : Session) (username : string)
    (password email : option string) (default_preset : string)
    (preferences : Json) (user : User.t) :
  orm_add_user username password email default_preset preferences s = Ok (user, s') ->
  exists u, orm_get_user (User.id user) s' = Ok (Some u, s')
  /\ User.username u = username /\ User.password u = password
  /\ User.email u = email /\ User.default_preset u = default_preset
  /\ User.preferences u = (if json_truthy preferences then preferences else JObj []).
Proof.
  intros H. unfold orm_add_user in H. run_op H.
  destruct (constraints_ok _) eqn:Hok; [|discriminate].
  injection H as <- <-. eexists. split.
  - unfold orm_get_user, autoflush, bind, get_session, ret. simpl. rewrite Hok.
    f_equal. f_equal. f_equal.
    apply find_snoc_fresh.
    + intros y Hy. simpl. apply next_id_fresh, in_map, Hy.
    + simpl. apply Z.eqb_refl.
  - repeat split; reflexivity.
Qed.

Lemma orm_add_user_get_user_witness :
  exists user s',
    orm_add_user "carol" (Some "pw"%string) None "default"
      (JObj [("theme"%string, JStr "dark")]) sample_session = Ok (user, s')
    /\ exists u, orm_get_user (User.id user) s' = Ok (Some u, s')
       /\ User.username u = "carol"%string /\ User.password u = Some "pw"%string
       /\ User.email u = None /\ User.default_preset u = "default"%string
       /\ User.preferences u
          = (if json_truthy (JObj [("theme"%string, JStr "dark")])
             then JObj [("theme"%string, JStr "dark")] else JObj []).
Proof.
  eexists _, _. split; [cbv; reflexivity|].
  eapply (orm_add_user_get_user sample_session). cbv. reflexivity.
Defined.

(** C5 as stated fails: [preferences=None] comes back as [{}]. *)
Theorem orm_add_user_preferences_None :
  exists user s' u,
    orm_add_user "carol" None None EmptyString JNull sample_session = Ok (user, s')
    /\ orm_get_user (User.id user) s' = Ok (Some u, s')
    /\ User.preferences u = JObj [] /\ User.preferences u <> JNull.
Proof.
  eexists _, _, _. split; [cbv; reflexivity|]. split; [cbv; reflexivity|].
  split; [reflexivity | discriminate].
Qed.

Lemma existsb_find {A} (f : A -> bool) (l : list A) :
  existsb f l = true -> exists x, find f l = Some x /\ In x l /\ f x = true.
Proof.
  induction l as [|y l IH]; simpl; [discriminate|].
  destruct (f y) eqn:Hy; simpl.
  - intros _. exists y. auto.
  - intros H. destruct (IH H) as [x [Hf [Hin Hx]]]. exists x. auto.
Qed.

Lemma setattr_updated_time_keys (c : Conversation.t) (t : Z) :
  Conversation.id (Conversation.setattr c (Conversation.kw_updated_time t)) = Conversation.id c
  /\ Conversation.user_id (Conversation.setattr c (Conversation.kw_updated_time t))
     = Conversation.user_id c
  /\ Conversation.updated_time (Conversation.setattr c (Conversation.kw_updated_time t)) = t.
Proof. destruct c; simpl; auto. Qed.

(** The flush of [orm_add_message] meets the constraints: the new
    Message's id is fresh and its Conversation exists; refreshing
    [updated_time] touches no key. *)
Lemma add_message_constraints (w : DB) (c : Conversation.t) (t : Z) (m : Message.t) :
  constraints_ok w = true -> In c (conversations w) ->
  Message.id m = next_id (map Message.id (messages w)) ->
  Message.conversation_id m = Conversation.id c ->
  constraints_ok
    (put_conversation (Conversation.id c)
       (Conversation.setattr c (Conversation.kw_updated_time t))
       (set_messages w (messages w ++ [m]))) = true.
Proof.
  intros Hok Hc Hid Hcid.
  destruct (setattr_updated_time_keys c t) as [Hk1 [Hk2 _]].
  set (c' := Conversation.setattr c (Conversation.kw_updated_time t)) in *.
  destruct w as [us cs ms]. simpl in *.
  unfold constraints_ok, keys_ok, refs_ok, user_exists, conversation_exists in *. simpl in *.
  repeat rewrite andb_true_iff in Hok. destruct Hok as [[[[[Hu Hn] He] Hci] Hmi] [Hrc Hrm]].
  rewrite (put_keys _ Conversation.id cs _ c' Hk1).
  rewrite Hu, Hn, He, Hci. simpl.
  rewrite map_app. simpl.
  rewrite nodupb_snoc; [| exact Hmi | intros y Hy; rewrite Hid; apply next_id_fresh, Hy].
  simpl. apply andb_true_iff. split.
  - apply forallb_forall. intros y Hy.
    destruct (put_in_inv _ Conversation.id cs _ c' y Hy) as [->|Hy'].
    + rewrite Hk2. rewrite forallb_forall in Hrc. apply Hrc, Hc.
    + rewrite forallb_forall in Hrc. apply Hrc, Hy'.
  - rewrite forallb_app. apply andb_true_iff.
    assert (Hex : forall z, existsb (fun x => Conversation.id x =? z)
                     (map (fun x => if Conversation.id x =? Conversation.id c then c' else x) cs)
                   = existsb (fun x => Conversation.id x =? z) cs).
    { intros z. rewrite !(existsb_key_map Conversation.id). rewrite put_keys; auto. }
    split.
    + apply forallb_forall. intros y Hy. rewrite Hex.
      rewrite forallb_forall in Hrm. apply Hrm, Hy.
    + simpl. rewrite Hex, Hcid, andb_true_r. apply existsb_exists.
      exists c. split; [exact Hc | apply Z.eqb_refl].
Qed.

(** The flush [session.get] runs inside [orm_add_message]: the pending
    Message alone, before the Conversation is touched. *)
Lemma add_message_flush_constraints (w : DB) (c : Conversation.t) (m : Message.t) :
  constraints_ok w = true -> In c (conversations w) ->
  Message.id m = next_id (map Message.id (messages w)) ->
  Message.conversation_id m = Conversation.id c ->
  constraints_ok (set_messages w (messages w ++ [m])) = true.
Proof.
  intros Hok Hc Hid Hcid. destruct w as [us cs ms].
  unfold constraints_ok, keys_ok, refs_ok, set_messages, user_exists,
    conversation_exists in *. simpl in *.
  repeat rewrite andb_true_iff in Hok. destruct Hok as [[[[[Hu Hn] He] Hci] Hmi] [Hrc Hrm]].
  rewrite Hu, Hn, He, Hci, Hrc, map_app. simpl.
  rewrite nodupb_snoc; [| exact Hmi | intros y Hy; rewrite Hid; apply next_id_fresh, Hy].
  rewrite forallb_app, Hrm. simpl. rewrite Hcid, andb_true_r.
  apply existsb_exists. exists c. split; [exact Hc | apply Z.eqb_refl].
Qed.

(** C3: adding a Message to an existing Conversation creates it with
    [created_time] the time of the call and, flushed by the same single
    commit, sets that Conversation's [updated_time] to the same time. *)
Theorem orm_add_message_updates_conversation (s : Session) (conversation : Conversation.t)
    (role message message_type : string) (message_metadata : option string)
    (provider model preset : string) :
  constraints_ok (work s) = true ->
  conversation_exists (work s) (Conversation.id conversation) = true ->
  exists m s',
    orm_add_message conversation role message message_type message_metadata
      provider model preset s = Ok (m, s')
    /\ Message.created_time m = now s
    /\ In m (messages (db s'))
    /\ (exists c, In c (conversations (db s'))
                  /\ Conversation.id c = Conversation.id conversation
                  /\ Conversation.updated_time c = Message.created_time m)
    /\ commits s' = S (commits s).
Proof.
  intros Hok Hex.
  destruct (existsb_find _ _ Hex) as [c [Hfind [Hc Hcid]]].
  apply Z.eqb_eq in Hcid.
  destruct s as [d w t n]. simpl in *.
  set (m := {| Message.id := next_id (map Message.id (messages w));
               Message.conversation_id := Conversation.id conversation;
               Message.role := role; Message.message := message;
               Message.message_type := message_type;
               Message.message_metadata := message_metadata;
               Message.provider := provider; Message.model := model;
               Message.preset := preset; Message.created_time := t |}).
  set (w' := put_conversation (Conversation.id c)
               (Conversation.setattr c (Conversation.kw_updated_time t))
               (set_messages w (messages w ++ [m]))).
  assert (Hok' : constraints_ok w' = true)
    by (apply add_message_constraints; auto; simpl; congruence).
  exists m, (mkSession w' w' t (S n)).
  split; [|split; [reflexivity | split; [|split; [|reflexivity]]]].
  - assert (Hfl : constraints_ok (set_messages w (messages w ++ [m])) = true)
      by (apply (add_message_flush_constraints w c m); auto; simpl; congruence).
    unfold orm_add_message, orm_get_conversation, autoflush.
    unfold bind, get_now, get_session, modify_work, ret, raise. simpl.
    fold m. rewrite Hfl. simpl.
    rewrite Hfind. unfold session_commit. simpl. fold m. fold w'. rewrite Hok'. reflexivity.
  - simpl. apply in_or_app. right. left. reflexivity.
  - destruct (setattr_updated_time_keys c t) as [Hk1 [_ Hk3]].
    exists (Conversation.setattr c (Conversation.kw_updated_time t)).
    split; [|split; [congruence | exact Hk3]].
    simpl. apply put_in. apply existsb_exists. exists c. split; [exact Hc | apply Z.eqb_refl].
Qed.

Lemma orm_add_message_updates_conversation_witness :
  exists m s',
    orm_add_message (sample_conversation 2 2) "assistant" "hello" "content" None
      "p" "m" EmptyString sample_session = Ok (m, s')
    /\ Message.created_time m = now sample_session
    /\ In m (messages (db s'))
    /\ (exists c, In c (conversations (db s'))
                  /\ Conversation.id c = Conversation.id (sample_conversation 2 2)
                  /\ Conversation.updated_time c = Message.created_time m)
    /\ commits s' = S (commits sample_session).
Proof.
  apply orm_add_message_updates_conversation; reflexivity.
Defined.

(** ** Deleting rows *)

Lemma keys_ok_sublist (us us' : list User.t) (cs cs' : list Conversation.t)
    (ms ms' : list Message.t) :
  sublist us' us -> sublist cs' cs -> sublist ms' ms ->
  keys_ok (mkDB us cs ms) = true -> keys_ok (mkDB us' cs' ms') = true.
Proof.
  intros Hu Hc Hm Hk. unfold keys_ok in *. simpl in *.
  repeat rewrite andb_true_iff in Hk. destruct Hk as [[[[H1 H2] H3] H4] H5].
  repeat rewrite andb_true_iff. repeat split.
  - eapply nodupb_sublist; [apply sublist_map, Hu | exact H1].
  - eapply nodupb_sublist; [apply sublist_map, Hu | exact H2].
  - eapply nodupb_sublist; [apply sublist_flat_map, Hu | exact H3].
  - eapply nodupb_sublist; [apply sublist_map, Hc | exact H4].
  - eapply nodupb_sublist; [apply sublist_map, Hm | exact H5].
Qed.

Ltac refs_facts H :=
  unfold refs_ok, user_exists, conversation_exists in H; simpl in H;
  apply andb_true_iff in H as [?Hrc ?Hrm];
  rewrite forallb_forall in Hrc, Hrm.

(** With [ondelete='CASCADE'] the DELETE of a User leaves no dangling
    reference. *)
Lemma delete_user_constraints (w : DB) (uid : Z) :
  constraints_ok w = true -> constraints_ok (delete_user_rows uid w) = true.
Proof.
  intros Hok. apply constraints_ok_split in Hok as [Hk Hr].
  apply constraints_ok_split. destruct w as [us cs ms]. split.
  - eapply keys_ok_sublist; [apply sublist_filter .. | exact Hk].
  - refs_facts Hr. unfold refs_ok, user_exists, conversation_exists. simpl.
    apply andb_true_iff. split; apply forallb_forall.
    + intros c Hc. apply filter_In in Hc as [Hc Hcu].
      apply negb_true_iff, Z.eqb_neq in Hcu.
      destruct (proj1 (existsb_exists _ _) (Hrc c Hc)) as [u [Hu Hid]].
      apply existsb_exists. exists u. split; [|exact Hid].
      apply filter_In. split; [exact Hu|]. apply Z.eqb_eq in Hid.
      apply negb_true_iff, Z.eqb_neq. congruence.
    + intros m Hm. apply filter_In in Hm as [Hm Hmc].
      destruct (proj1 (existsb_exists _ _) (Hrm m Hm)) as [c [Hc Hid]].
      apply existsb_exists. exists c. split; [|exact Hid].
      apply filter_In. split; [exact Hc|].
      apply negb_true_iff, Z.eqb_neq. intros Hcu.
      apply negb_true_iff, not_true_iff_false in Hmc. apply Hmc, existsb_exists.
      exists (Conversation.id c). split.
      * apply in_map, filter_In. split; [exact Hc | apply Z.eqb_eq, Hcu].
      * apply Z.eqb_eq in Hid. apply Z.eqb_eq. congruence.
Qed.

Lemma delete_conversation_constraints (w : DB) (cid : Z) :
  constraints_ok w = true -> constraints_ok (delete_conversation_rows cid w) = true.
Proof.
  intros Hok. apply constraints_ok_split in Hok as [Hk Hr].
  apply constraints_ok_split. destruct w as [us cs ms]. split.
  - eapply keys_ok_sublist; [apply sublist_refl | apply sublist_filter .. | exact Hk].
  - refs_facts Hr. unfold refs_ok, user_exists, conversation_exists. simpl.
    apply andb_true_iff. split; apply forallb_forall.
    + intros c Hc. apply filter_In in Hc as [Hc _]. apply Hrc, Hc.
    + intros m Hm. apply filter_In in Hm as [Hm Hmc].
      destruct (proj1 (existsb_exists _ _) (Hrm m Hm)) as [c [Hc Hid]].
      apply existsb_exists. exists c. split; [|exact Hid].
      apply filter_In. split; [exact Hc|].
      apply Z.eqb_eq in Hid. rewrite Hid. exact Hmc.
Qed.

Lemma delete_message_constraints (w : DB) (mid : Z) :
  constraints_ok w = true -> constraints_ok (delete_message_rows mid w) = true.
Proof.
  intros Hok. apply constraints_ok_split in Hok as [Hk Hr].
  apply constraints_ok_split. destruct w as [us cs ms]. split.
  - eapply keys_ok_sublist; [apply sublist_refl | apply sublist_refl | apply sublist_filter | exact Hk].
  - refs_facts Hr. unfold refs_ok, user_exists, conversation_exists. simpl.
    apply andb_true_iff. split; apply forallb_forall.
    + exact Hrc.
    + intros m Hm. apply filter_In in Hm as [Hm _]. apply Hrm, Hm.
Qed.

(** C4: on a stored state (all constraints met), [orm_delete_user] succeeds
    and removes the User, every Conversation referencing it and every
    Message of those Conversations; after each of the three delete
    operations every remaining Conversation references an existing User and
    every remaining Message an existing Conversation. *)
Theorem orm_delete_cascade :
  (forall (s : Session) (user : User.t),
     constraints_ok (work s) = true ->
     user_exists (work s) (User.id user) = true ->
     exists s', orm_delete_user user s = Ok (user, s')
     /\ (forall u, In u (users (db s')) -> User.id u <> User.id user)
     /\ (forall c, In c (conversations (db s')) -> Conversation.user_id c <> User.id user)
     /\ (forall m c, In m (messages (db s')) -> In c (conversations (work s)) ->
           Conversation.user_id c = User.id user ->
           Message.conversation_id m <> Conversation.id c)
     /\ refs_ok (db s') = true)
  /\ (forall (s : Session) (conversation : Conversation.t),
        constraints_ok (work s) = true ->
        conversation_exists (work s) (Conversation.id conversation) = true ->
        exists s', orm_delete_conversation conversation s = Ok (None, s')
        /\ (forall m, In m (messages (db s')) ->
              Message.conversation_id m <> Conversation.id conversation)
        /\ refs_ok (db s') = true)
  /\ (forall (s : Session) (message : Message.t),
        constraints_ok (work s) = true ->
        message_exists (work s) (Message.id message) = true ->
        exists s', orm_delete_message message s = Ok (None, s')
        /\ refs_ok (db s') = true).
Proof.
  split; [|split].
  - intros [d w t n] user Hok Hex. simpl in *.
    pose proof (delete_user_constraints w (User.id user) Hok) as Hok'.
    exists (mkSession (delete_user_rows (User.id user) w)
                      (delete_user_rows (User.id user) w) t (S n)).
    split; [|split; [|split; [|split]]]; simpl.
    + unfold orm_delete_user, bind, get_session, modify_work, ret. simpl.
      rewrite Hex. unfold session_commit. simpl. rewrite Hok'. reflexivity.
    + intros u Hu. apply filter_In in Hu as [_ Hu].
      apply negb_true_iff, Z.eqb_neq in Hu. exact Hu.
    + intros c Hc. apply filter_In in Hc as [_ Hc].
      apply negb_true_iff, Z.eqb_neq in Hc. exact Hc.
    + intros m c Hm Hc Hcu Hmc. apply filter_In in Hm as [_ Hm].
      apply negb_true_iff, not_true_iff_false in Hm. apply Hm, existsb_exists.
      exists (Conversation.id c). split.
      * apply in_map, filter_In. split; [exact Hc | apply Z.eqb_eq, Hcu].
      * apply Z.eqb_eq, Hmc.
    + apply constraints_ok_split in Hok' as [_ Hr]. exact Hr.
  - intros [d w t n] conversation Hok Hex. simpl in *.
    pose proof (delete_conversation_constraints w (Conversation.id conversation) Hok) as Hok'.
    exists (mkSession (delete_conversation_rows (Conversation.id conversation) w)
                      (delete_conversation_rows (Conversation.id conversation) w) t (S n)).
    split; [|split]; simpl.
    + unfold orm_delete_conversation, bind, get_session, modify_work, ret. simpl.
      rewrite Hex. unfold session_commit. simpl. rewrite Hok'. reflexivity.
    + intros m Hm. apply filter_In in Hm as [_ Hm].
      apply negb_true_iff, Z.eqb_neq in Hm. exact Hm.
    + apply constraints_ok_split in Hok' as [_ Hr]. exact Hr.
  - intros [d w t n] message Hok Hex. simpl in *.
    pose proof (delete_message_constraints w (Message.id message) Hok) as Hok'.
    exists (mkSession (delete_message_rows (Message.id message) w)
                      (delete_message_rows (Message.id message) w) t (S n)).
    split; simpl.
    + unfold orm_delete_message, bind, get_session, modify_work, ret. simpl.
      rewrite Hex. unfold session_commit. simpl. rewrite Hok'. reflexivity.
    + apply constraints_ok_split in Hok' as [_ Hr]. exact Hr.
Qed.

Lemma orm_delete_cascade_witness :
  (exists s', orm_delete_user (sample_user 1 "bob") sample_session
              = Ok (sample_user 1 "bob", s')
   /\ refs_ok (db s') = true
   /\ conversations (db s') = [sample_conversation 2 2]
   /\ messages (db s') = [sample_message 2 2])
  /\ (exists s', orm_delete_conversation (sample_conversation 1 1) sample_session
                 = Ok (None, s') /\ refs_ok (db s') = true)
  /\ (exists s', orm_delete_message (sample_message 3 1) sample_session
                 = Ok (None, s') /\ refs_ok (db s') = true).
Proof.
  destruct orm_delete_cascade as [Hu [Hc Hm]].
  split; [|split].
  - destruct (Hu sample_session (sample_user 1 "bob") eq_refl eq_refl)
      as [s' [Hrun [_ [_ [_ Hr]]]]].
    exists s'. split; [exact Hrun | split; [exact Hr|]].
    injection Hrun as <-. split; reflexivity.
  - destruct (Hc sample_session (sample_conversation 1 1) eq_refl eq_refl)
      as [s' [Hrun [_ Hr]]].
    exists s'. auto.
  - destruct (Hm sample_session (sample_message 3 1) eq_refl eq_refl) as [s' [Hrun Hr]].
    exists s'. auto.
Defined.

(** C6 (failing input): [orm_delete_conversation] and [orm_delete_message]
    commit, but have no [return] statement, so they return [None] rather
    than the deleted entity ([orm_delete_user] returns its User). *)
Theorem orm_delete_returns_None :
  (exists s', orm_delete_message (sample_message 3 1) sample_session = Ok (None, s')
              /\ commits s' = S (commits sample_session))
  /\ (exists s', orm_delete_conversation (sample_conversation 1 1) sample_session
                 = Ok (None, s')
                 /\ commits s' = S (commits sample_session)).
Proof.
  split; eexists; split; [cbv; reflexivity | reflexivity | cbv; reflexivity | reflexivity].
Qed.

(** ** Editing rows *)

Section KwargsProofs.
Variables T attr kwarg : Type.
Variable attr_of : kwarg -> attr.
Variable attr_eq_dec : forall a b : attr, {a = b} + {a <> b}.
Variable getattr : T -> attr -> kwarg.
Variable setattr : T -> kwarg -> T.
Hypothesis getattr_setattr_same : forall x k, getattr (setattr x k) (attr_of k) = k.
Hypothesis getattr_setattr_other :
  forall x k a, attr_of k <> a -> getattr (setattr x k) a = getattr x a.

Lemma kwarg_for_absent (kwargs : list kwarg) (a : attr) :
  ~ In a (map attr_of kwargs) -> kwarg_for attr_of attr_eq_dec kwargs a = None.
Proof.
  induction kwargs as [|k kwargs IH]; simpl; intros Hn; [reflexivity|].
  destruct (attr_eq_dec (attr_of k) a) as [E|E]; [exfalso; auto|].
  apply IH. intros H. auto.
Qed.

(** Setting the keyword arguments one by one gives every named attribute
    its value and leaves the others as they were. *)
Lemma getattr_set_kwargs (x : T) (kwargs : list kwarg) :
  NoDup (map attr_of kwargs) ->
  forall a, getattr (set_kwargs setattr x kwargs) a
            = match kwarg_for attr_of attr_eq_dec kwargs a with
              | Some k => k
              | None => getattr x a
              end.
Proof.
  unfold set_kwargs.
  revert x. induction kwargs as [|k kwargs IH]; intros x Hnd a; simpl; [reflexivity|].
  inversion Hnd as [|? ? Hk Hnd']; subst.
  rewrite (IH _ Hnd' a).
  destruct (attr_eq_dec (attr_of k) a) as [<-|E].
  - rewrite kwarg_for_absent by exact Hk. apply getattr_setattr_same.
  - destruct (kwarg_for attr_of attr_eq_dec kwargs a); [reflexivity|].
    apply getattr_setattr_other, E.
Qed.
End KwargsProofs.

Ltac attr_cases := intros x k; destruct x, k; reflexivity.
Ltac attr_other_cases := intros x k a; destruct x, k, a; simpl; congruence.

Lemma user_getattr_setattr_same :
  forall x k, User.getattr (User.setattr x k) (User.attr_of k) = k.
Proof. attr_cases. Qed.
Lemma user_getattr_setattr_other :
  forall x k a, User.attr_of k <> a -> User.getattr (User.setattr x k) a = User.getattr x a.
Proof. attr_other_cases. Qed.
Lemma conversation_getattr_setattr_same :
  forall x k, Conversation.getattr (Conversation.setattr x k) (Conversation.attr_of k) = k.
Proof. attr_cases. Qed.
Lemma conversation_getattr_setattr_other :
  forall x k a, Conversation.attr_of k <> a ->
    Conversation.getattr (Conversation.setattr x k) a = Conversation.getattr x a.
Proof. attr_other_cases. Qed.
Lemma message_getattr_setattr_same :
  forall x k, Message.getattr (Message.setattr x k) (Message.attr_of k) = k.
Proof. attr_cases. Qed.
Lemma message_getattr_setattr_other :
  forall x k a, Message.attr_of k <> a ->
    Message.getattr (Message.setattr x k) a = Message.getattr x a.
Proof. attr_other_cases. Qed.

Ltac edit_run H :=
  unfold bind, modify_work, ret in H; simpl in H;
  unfold session_commit in H; simpl in H;
  match type of H with
  | context [constraints_ok ?w] =>
      let Hc := fresh "Hcommit" in destruct (constraints_ok w) eqn:Hc; [|discriminate]
  end;
  injection H as <- <-; simpl.

(** The autoflush of a [session.get] right after a commit that succeeded. *)
Ltac flush_ok :=
  match goal with
  | |- context [constraints_ok ?x] =>
      replace (constraints_ok x) with true by (symmetry; assumption)
  end; simpl.

Ltac get_run :=
  unfold orm_get_user, orm_get_conversation, orm_get_message, orm_get_conversations,
    orm_get_messages, orm_get_last_message, autoflush, bind, get_session, lift, q_filter, ret;
  simpl; try flush_ok.

(** A [message=] keyword never reaches the body of [orm_edit_message]. *)
Ltac message_kwarg_ok H :=
  unfold orm_edit_message in H;
  let E := fresh "Hmsg" in
  destruct (kwarg_for Message.attr_of Message.attr_eq_dec _ Message.a_message) eqn:E;
  [unfold raise in H; discriminate|].

(** When they return, [orm_edit_user], [orm_edit_conversation] and
    [orm_edit_message] have given each attribute named in [kwargs] (a
    dict: names are distinct) its given value, left every other attribute
    of the entity as it was, and persisted the edited row with one
    commit. *)
Theorem orm_edit_sets_named_fields :
  (forall (s s' : Session) (user r : User.t) (kwargs : list User.kwarg),
     NoDup (map User.attr_of kwargs) ->
     user_exists (work s) (User.id user) = true ->
     orm_edit_user user kwargs s = Ok (r, s') ->
     (forall a, User.getattr r a
                = match kwarg_for User.attr_of User.attr_eq_dec kwargs a with
                  | Some k => k
                  | None => User.getattr user a
                  end)
     /\ In r (users (db s')) /\ commits s' = S (commits s))
  /\ (forall (s s' : Session) (conversation r : Conversation.t)
             (kwargs : list Conversation.kwarg),
        NoDup (map Conversation.attr_of kwargs) ->
        conversation_exists (work s) (Conversation.id conversation) = true ->
        orm_edit_conversation conversation kwargs s = Ok (r, s') ->
        (forall a, Conversation.getattr r a
                   = match kwarg_for Conversation.attr_of Conversation.attr_eq_dec kwargs a with
                     | Some k => k
                     | None => Conversation.getattr conversation a
                     end)
        /\ In r (conversations (db s')) /\ commits s' = S (commits s))
  /\ (forall (s s' : Session) (message r : Message.t) (kwargs : list Message.kwarg),
        NoDup (map Message.attr_of kwargs) ->
        message_exists (work s) (Message.id message) = true ->
        orm_edit_message message kwargs s = Ok (r, s') ->
        (forall a, Message.getattr r a
                   = match kwarg_for Message.attr_of Message.attr_eq_dec kwargs a with
                     | Some k => k
                     | None => Message.getattr message a
                     end)
        /\ In r (messages (db s')) /\ commits s' = S (commits s)).
Proof.
  split; [|split].
  - intros [d w t n] s' user r kwargs Hnd Hex H. unfold orm_edit_user in H. edit_run H.
    split; [|split; [apply put_in, Hex | reflexivity]].
    apply getattr_set_kwargs; auto using user_getattr_setattr_same, user_getattr_setattr_other.
  - intros [d w t n] s' conversation r kwargs Hnd Hex H.
    unfold orm_edit_conversation in H. edit_run H.
    split; [|split; [apply put_in, Hex | reflexivity]].
    apply getattr_set_kwargs;
      auto using conversation_getattr_setattr_same, conversation_getattr_setattr_other.
  - intros [d w t n] s' message r kwargs Hnd Hex H. message_kwarg_ok H. edit_run H.
    split; [|split; [apply put_in, Hex | reflexivity]].
    apply getattr_set_kwargs;
      auto using message_getattr_setattr_same, message_getattr_setattr_other.
Qed.

Lemma orm_edit_sets_named_fields_witness :
  (exists r s', orm_edit_user (sample_user 2 "alice")
                  [User.kw_email (Some "alice@example.org"%string)] sample_session = Ok (r, s')
   /\ User.getattr r User.a_email = User.kw_email (Some "alice@example.org"%string)
   /\ User.getattr r User.a_username = User.kw_username "alice"
   /\ In r (users (db s')))
  /\ (exists r s', orm_edit_conversation (sample_conversation 1 1)
                     [Conversation.kw_title (Some "greeting"%string);
                      Conversation.kw_hidden true] sample_session = Ok (r, s')
      /\ Conversation.getattr r Conversation.a_hidden = Conversation.kw_hidden true
      /\ Conversation.getattr r Conversation.a_user_id = Conversation.kw_user_id 1
      /\ In r (conversations (db s')))
  /\ (exists r s', orm_edit_message (sample_message 2 2)
                     [Message.kw_role "assistant"] sample_session = Ok (r, s')
      /\ Message.getattr r Message.a_role = Message.kw_role "assistant"
      /\ Message.getattr r Message.a_message = Message.kw_message "hi"
      /\ In r (messages (db s'))).
Proof.
  destruct orm_edit_sets_named_fields as [Hu [Hc Hm]].
  split; [|split];
    match goal with
    | |- exists r s', ?run = Ok (r, s') /\ _ =>
        destruct run as [[r s']|e] eqn:E; [exists r, s'; split; [reflexivity|] | cbv in E; discriminate]
    end.
  - eapply Hu in E as [Hf [Hin _]];
      [rewrite !Hf; auto | simpl; repeat constructor; simpl; intuition discriminate
      | reflexivity].
  - eapply Hc in E as [Hf [Hin _]];
      [rewrite !Hf; auto | simpl; repeat constructor; simpl; intuition discriminate
      | reflexivity].
  - eapply Hm in E as [Hf [Hin _]];
      [rewrite !Hf; auto | simpl; repeat constructor; simpl; intuition discriminate
      | reflexivity].
Defined.

(** C7 (failing input): [orm_edit_message(message, **kwargs)] names its
    positional parameter [message], the name of the Message column, so
    the edit [message="bye"] raises [TypeError] and the column can never
    be set, while the same edit of the [role] column commits. *)
Theorem orm_edit_message_message_kwarg :
  orm_edit_message (sample_message 2 2) [Message.kw_message "bye"] sample_session
  = Err TypeError
  /\ Message.attr_of (Message.kw_message "bye") = Message.a_message
  /\ exists r s', orm_edit_message (sample_message 2 2) [Message.kw_role "assistant"]
                    sample_session = Ok (r, s')
     /\ Message.role r = "assistant"%string.
Proof.
  split; [reflexivity | split; [reflexivity|]].
  eexists _, _. split; [cbv; reflexivity | reflexivity].
Qed.

(** * Further properties of the [Manager] and [Orm] code *)

(** X2: [orm_get_users(limit, offset)] returns [min(limit, n - offset)]
    Users, [n] the number stored. *)
Theorem orm_get_users_length (s : Session) (limit offset : option nat) :
  exists r, orm_get_users limit offset s = Ok (r, s)
  /\ let k := (List.length (users (work s)) - match offset with Some o => o | None => 0 end)%nat in
     List.length r = match limit with Some n => Nat.min n k | None => k end.
Proof.
  destruct (orm_get_users_ordered s limit offset) as [ordered [Hp [_ Hrun]]].
  eexists. split; [exact Hrun|]. simpl.
  rewrite (Permutation_length Hp).
  destruct limit, offset; simpl;
    rewrite ?length_firstn, ?length_skipn; lia.
Qed.

(** X4: a nonzero [target_id] together with a [limit] or an [offset]
    raises [InvalidRequestError]: the [target_id] filter comes after
    [_apply_limit_offset]. *)
Theorem orm_get_messages_target_after_limit (s : Session) (conversation : Conversation.t)
    (limit offset : option nat) (N : Z) :
  N <> 0 -> (limit <> None \/ offset <> None) ->
  orm_get_messages conversation limit offset (Some N) s = Err InvalidRequestError.
Proof.
  intros HN Hlo. apply Z.eqb_neq in HN.
  unfold orm_get_messages, bind, get_session, lift, ret. simpl. rewrite HN.
  destruct limit, offset; simpl; try reflexivity. intuition congruence.
Qed.

Lemma orm_get_messages_target_after_limit_witness :
  orm_get_messages (sample_conversation 1 1) (Some 10%nat) None (Some 3) sample_session
  = Err InvalidRequestError.
Proof.
  apply orm_get_messages_target_after_limit; [discriminate | left; discriminate].
Defined.

(** X5: with [order_desc=False], [orm_get_conversations] returns the window
    [offset], [limit] of all stored Conversations, of every user, in
    ascending id order. *)
Theorem orm_get_conversations_asc_all (s : Session) (user : User.t)
    (limit offset : option nat) :
  exists ordered,
    Permutation (conversations (work s)) ordered
    /\ Sorted (fun a b => Conversation.id a <= Conversation.id b) ordered
    /\ orm_get_conversations user limit offset false s
       = Ok (apply_limit limit (apply_offset offset ordered), s).
Proof.
  exists (sort conversation_id_asc (conversations (work s))). split; [|split].
  - apply sort_perm.
  - eapply sorted_weaken; [|apply (sort_sorted _ conversation_id_asc); intros a b; apply Z_leb_total].
    intros a b H. apply Z.leb_le, H.
  - unfold orm_get_conversations, bind, get_session, ret, q_all.
    destruct limit, offset; simpl; rewrite filter_all_true; reflexivity.
Qed.

(** ** Error paths of the write operations *)

Lemma nodupb_snoc_dup {A} (eqb : A -> A -> bool) (l : list A) (x : A) :
  (forall a, eqb a a = true) -> In x l -> nodupb eqb (l ++ [x]) = false.
Proof.
  intros Hrefl. induction l as [|y l IH]; simpl; [contradiction|].
  intros [->|Hin].
  - rewrite existsb_app. simpl. rewrite Hrefl, !orb_true_r. reflexivity.
  - rewrite (IH Hin), andb_false_r. reflexivity.
Qed.

(** X6: adding a Conversation for a user with no stored row raises
    [IntegrityError] (the foreign key on [user_id]). *)
Theorem orm_add_conversation_missing_user (s : Session) (user : User.t)
    (title : option string) (hidden : bool) :
  user_exists (work s) (User.id user) = false ->
  orm_add_conversation user title hidden s = Err IntegrityError.
Proof.
  intros Hno. unfold orm_add_conversation, bind, get_now, get_session, modify_work, ret.
  simpl. unfold session_commit. simpl.
  replace (constraints_ok _) with false; [reflexivity|]. symmetry.
  unfold constraints_ok, refs_ok. simpl.
  rewrite forallb_app. simpl. unfold user_exists in *. simpl. rewrite Hno.
  rewrite ?andb_false_l, ?andb_false_r. reflexivity.
Qed.

Lemma orm_add_conversation_missing_user_witness :
  orm_add_conversation (sample_user 7 "eve") None false sample_session = Err IntegrityError.
Proof. apply orm_add_conversation_missing_user. reflexivity. Defined.

(** X7: adding a Message to a Conversation with no stored row raises
    [IntegrityError] before any commit: the [session.get] of
    [orm_get_conversation] autoflushes the pending Message, whose foreign
    key has no Conversation to refer to. *)
Theorem orm_add_message_missing_conversation (s : Session) (conversation : Conversation.t)
    (role message message_type : string) (message_metadata : option string)
    (provider model preset : string) :
  conversation_exists (work s) (Conversation.id conversation) = false ->
  orm_add_message conversation role message message_type message_metadata
    provider model preset s = Err IntegrityError.
Proof.
  intros Hno. unfold orm_add_message, orm_get_conversation, autoflush.
  unfold bind, get_now, get_session, modify_work, ret, raise. simpl.
  replace (constraints_ok _) with false; [reflexivity|]. symmetry.
  unfold constraints_ok, refs_ok, set_messages. simpl.
  rewrite forallb_app. simpl. unfold conversation_exists in *. simpl. rewrite Hno.
  rewrite ?andb_false_l, ?andb_false_r. reflexivity.
Qed.

Lemma orm_add_message_missing_conversation_witness :
  orm_add_message (sample_conversation 9 1) "user" "hi" "content" None "p" "m"
    EmptyString sample_session = Err IntegrityError.
Proof. apply orm_add_message_missing_conversation. reflexivity. Defined.

(** X8: adding a User whose username is taken, or whose email is the
    non-null email of a stored User, raises [IntegrityError]
    ([unique=True] on both columns). *)
Theorem orm_add_user_duplicate (s : Session) (username : string)
    (password email : option string) (default_preset : string) (preferences : Json) :
  (In username (map User.username (users (work s)))
   \/ exists e u, email = Some e /\ In u (users (work s)) /\ User.email u = Some e) ->
  orm_add_user username password email default_preset preferences s = Err IntegrityError.
Proof.
  intros Hdup. unfold orm_add_user, bind, get_now, get_session, modify_work, ret.
  simpl. unfold session_commit. simpl.
  replace (constraints_ok _) with false; [reflexivity|]. symmetry.
  unfold constraints_ok, keys_ok. simpl. rewrite !map_app, flat_map_app. simpl.
  destruct Hdup as [Hn | [e [u [-> [Hu He]]]]].
  - rewrite (nodupb_snoc_dup String.eqb _ _ String.eqb_refl Hn).
    rewrite ?andb_false_l, ?andb_false_r. reflexivity.
  - simpl. rewrite (nodupb_snoc_dup String.eqb
               (flat_map (fun u => opt_list (User.email u)) (users (work s))) e String.eqb_refl).
    + rewrite andb_false_r, !andb_false_l. reflexivity.
    + apply in_flat_map. exists u. rewrite He. split; [exact Hu | left; reflexivity].
Qed.

Lemma orm_add_user_duplicate_witness :
  orm_add_user "bob" None None EmptyString JNull sample_session = Err IntegrityError.
Proof. apply orm_add_user_duplicate. left. simpl. auto. Defined.



(** ** Composing operations *)

(** In descending key order, a row whose key exceeds every other row's
    comes first. *)
Lemma sort_desc_head_fresh {A} (key : A -> Z) (f : A -> bool) (l : list A) (x : A) :
  f x = true -> (forall y, In y l -> key y < key x) ->
  exists rest, sort (fun a b => key b <=? key a) (filter f (l ++ [x])) = x :: rest.
Proof.
  intros Hfx Hlt.
  set (le := fun a b => key b <=? key a).
  assert (Hperm := sort_perm _ le (filter f (l ++ [x]))).
  assert (Hs : StronglySorted (fun a b => le a b = true) (sort le (filter f (l ++ [x])))).
  { apply Sorted_StronglySorted.
    - intros a b c Hab Hbc. unfold le in *. apply Z.leb_le in Hab, Hbc. apply Z.leb_le. lia.
    - apply sort_sorted. intros a b. apply Z_leb_total. }
  assert (Hx : In x (sort le (filter f (l ++ [x])))).
  { apply (Permutation_in _ Hperm), filter_In. split; [apply in_or_app; right; left |]; auto. }
  destruct (sort le (filter f (l ++ [x]))) as [|h rest]; [contradiction|].
  exists rest. f_equal.
  assert (Hh : In h (filter f (l ++ [x])))
    by (apply (Permutation_in _ (Permutation_sym Hperm)); left; reflexivity).
  apply filter_In in Hh as [Hh _]. apply in_app_or in Hh as [Hh|[<-|[]]]; [|reflexivity].
  exfalso. specialize (Hlt h Hh).
  destruct Hx as [->|Hx]; [lia|].
  apply StronglySorted_inv in Hs as [_ Hall]. rewrite Forall_forall in Hall.
  specialize (Hall x Hx). unfold le in Hall. apply Z.leb_le in Hall. lia.
Qed.

(** X10: right after [orm_add_conversation(user, ...)], the newest-first
    listing [orm_get_conversations(user)] starts with the new
    Conversation (any limit but 0, no offset). *)
Theorem orm_add_conversation_listed_first (s s' : Session) (user : User.t)
    (title : option string) (hidden : bool) (c : Conversation.t) (limit : option nat) :
  orm_add_conversation user title hidden s = Ok (c, s') ->
  limit <> Some 0%nat ->
  exists r, orm_get_conversations user limit None true s' = Ok (c :: r, s').
Proof.
  intros H Hlim. unfold orm_add_conversation in H. run_op H.
  destruct (constraints_ok _); [|discriminate]. injection H as <- <-.
  unfold orm_get_conversations, bind, get_session, lift, ret, q_all.
  destruct limit as [[|n]|]; [congruence| |]; simpl; unfold conversation_id_desc;
  (match goal with
   | |- context [sort _ (filter ?f (?l ++ [?x]))] =>
       destruct (sort_desc_head_fresh Conversation.id f l x) as [rest Hr];
       [apply andb_true_iff; split; [apply Z.eqb_eq|]; reflexivity
       | intros y Hy; apply next_id_gt, in_map, Hy |]
   end);
  rewrite Hr; eexists; reflexivity.
Qed.

Lemma orm_add_conversation_listed_first_witness :
  exists c s' r,
    orm_add_conversation (sample_user 1 "bob") (Some "new"%string) true sample_session
    = Ok (c, s')
    /\ orm_get_conversations (sample_user 1 "bob") (Some 20%nat) None true s' = Ok (c :: r, s').
Proof.
  destruct (orm_add_conversation (sample_user 1 "bob") (Some "new"%string) true sample_session)
    as [[c s']|e] eqn:E; [|cbv in E; discriminate].
  destruct (orm_add_conversation_listed_first _ _ _ _ _ _ (Some 20%nat) E) as [r Hr];
    [discriminate|].
  exists c, s', r. auto.
Defined.

(** X11: right after [orm_add_message(conversation, ...)],
    [orm_get_last_message(conversation)] returns the new Message. *)
Theorem orm_add_message_then_last (s s' : Session) (conversation : Conversation.t)
    (role message message_type : string) (message_metadata : option string)
    (provider model preset : string) (m : Message.t) :
  orm_add_message conversation role message message_type message_metadata
    provider model preset s = Ok (m, s') ->
  orm_get_last_message conversation s' = Ok (Some m, s').
Proof.
  intros H. unfold orm_add_message, orm_get_conversation, autoflush in H.
  unfold bind, get_now, get_session, modify_work, ret, raise in H. simpl in H.
  destruct (constraints_ok _); [|discriminate]. simpl in H.
  destruct (find _ _) as [c|]; [|discriminate].
  unfold session_commit in H. simpl in H.
  destruct (constraints_ok _); [|discriminate]. injection H as <- <-.
  unfold orm_get_last_message, q_first, bind, get_session, lift, ret, q_all. simpl.
  unfold message_id_desc.
  match goal with
  | |- context [sort _ (filter ?f (?l ++ [?x]))] =>
      destruct (sort_desc_head_fresh Message.id f l x) as [rest Hr];
      [apply andb_true_iff; split; [apply Z.eqb_eq|]; reflexivity
      | intros y Hy; apply next_id_gt, in_map, Hy |]
  end.
  rewrite Hr. reflexivity.
Qed.

Lemma orm_add_message_then_last_witness :
  exists m s',
    orm_add_message (sample_conversation 2 2) "assistant" "ok" "content" None "p" "m"
      EmptyString sample_session = Ok (m, s')
    /\ orm_get_last_message (sample_conversation 2 2) s' = Ok (Some m, s').
Proof.
  destruct (orm_add_message (sample_conversation 2 2) "assistant" "ok" "content" None "p" "m"
              EmptyString sample_session) as [[m s']|e] eqn:E; [|cbv in E; discriminate].
  exists m, s'. split; [reflexivity | exact (orm_add_message_then_last _ _ _ _ _ _ _ _ _ _ _ E)].
Defined.

Lemma nodupb_Z_NoDup (l : list Z) : nodupb Z.eqb l = true -> NoDup l.
Proof.
  induction l as [|x l IH]; simpl; intros H; constructor.
  - apply andb_prop in H as [Hx _]. intros Hin.
    assert (existsb (Z.eqb x) l = true) by (apply existsb_exists; exists x; split; [exact Hin | apply Z.eqb_refl]).
    rewrite H in Hx. discriminate.
  - apply andb_prop in H as [_ H]. auto.
Qed.

Lemma key_unique {A} (key : A -> Z) (l : list A) (a b : A) :
  NoDup (map key l) -> In a l -> In b l -> key a = key b -> a = b.
Proof.
  induction l as [|x l IH]; simpl; intros Hnd Ha Hb Hk; [contradiction|].
  inversion Hnd as [|? ? Hx Hnd']; subst.
  destruct Ha as [<-|Ha], Hb as [<-|Hb]; auto.
  - exfalso. apply Hx. rewrite Hk. apply in_map, Hb.
  - exfalso. apply Hx. rewrite <- Hk. apply in_map, Ha.
Qed.

Lemma strongly_sorted_last {A} (R : A -> A -> Prop) (l : list A) (z : A) :
  StronglySorted R (l ++ [z]) -> forall y, In y l -> R y z.
Proof.
  induction l as [|x l IH]; simpl; intros Hs y Hy; [contradiction|].
  apply StronglySorted_inv in Hs as [Hs Hall]. destruct Hy as [<-|Hy].
  - rewrite Forall_forall in Hall. apply Hall, in_or_app. right. left. reflexivity.
  - apply IH; assumption.
Qed.

(** X12: on a stored state (message ids unique), [orm_get_last_message]
    returns the last Message of [orm_get_messages(conversation)], and
    [None] when that list is empty. *)
Theorem orm_get_last_message_is_last (s : Session) (conversation : Conversation.t) :
  constraints_ok (work s) = true ->
  exists ms, orm_get_messages conversation None None None s = Ok (ms, s)
  /\ orm_get_last_message conversation s
     = Ok (match rev ms with [] => None | m :: _ => Some m end, s).
Proof.
  intros Hok. apply constraints_ok_split in Hok as [Hk _].
  unfold keys_ok in Hk. repeat rewrite andb_true_iff in Hk.
  destruct Hk as [[[[_ _] _] _] Hmi]. apply nodupb_Z_NoDup in Hmi.
  set (rows := filter (fun r => (Message.conversation_id r =? Conversation.id conversation) && true)
                 (messages (work s))).
  exists (sort message_id_asc rows). split.
  - unfold orm_get_messages, bind, get_session, lift, ret, q_all. reflexivity.
  - destruct (orm_get_last_message_greatest s conversation) as [r [Hrun Hr]].
    rewrite Hrun. f_equal. f_equal.
    assert (Hperm := sort_perm _ message_id_asc rows).
    assert (Hs : StronglySorted (fun a b => message_id_asc a b = true) (sort message_id_asc rows)).
    { apply Sorted_StronglySorted.
      - intros a b c Hab Hbc. unfold message_id_asc in *.
        apply Z.leb_le in Hab, Hbc. apply Z.leb_le. lia.
      - apply sort_sorted, message_id_asc_total. }
    assert (Hin : forall x, In x (sort message_id_asc rows) <->
                   In x (messages (work s)) /\ Message.conversation_id x = Conversation.id conversation).
    { intros x. split.
      - intros Hx. apply (Permutation_in _ (Permutation_sym Hperm)), filter_In in Hx as [Hx Hc].
        rewrite andb_true_r, Z.eqb_eq in Hc. auto.
      - intros [Hx Hc]. apply (Permutation_in _ Hperm), filter_In. split; [exact Hx|].
        rewrite Hc, Z.eqb_refl. reflexivity. }
    destruct (rev (sort message_id_asc rows)) as [|z rest] eqn:Hrev.
    + apply (f_equal (@rev _)) in Hrev. rewrite rev_involutive in Hrev. simpl in Hrev.
      destruct r as [m|]; [|reflexivity].
      destruct Hr as [Hm [Hc _]]. exfalso.
      assert (In m (sort message_id_asc rows)) as Hm' by (apply Hin; auto).
      rewrite Hrev in Hm'. contradiction.
    + apply (f_equal (@rev _)) in Hrev. rewrite rev_involutive in Hrev. simpl in Hrev.
      assert (Hz : In z (sort message_id_asc rows))
        by (rewrite Hrev; apply in_or_app; right; left; reflexivity).
      apply Hin in Hz as [Hz Hzc].
      destruct r as [m|].
      * destruct Hr as [Hm [Hc Hmax]]. f_equal.
        apply (key_unique Message.id (messages (work s))); auto.
        assert (Hmz : In m (sort message_id_asc rows)) by (apply Hin; auto).
        rewrite Hrev in Hmz. apply in_app_or in Hmz as [Hmz|[<-|[]]]; [|reflexivity].
        rewrite Hrev in Hs. pose proof (strongly_sorted_last _ _ _ Hs m Hmz) as Hle.
        unfold message_id_asc in Hle. apply Z.leb_le in Hle.
        specialize (Hmax z Hz Hzc). lia.
      * exfalso. exact (Hr z Hz Hzc).
Qed.

Lemma orm_get_last_message_is_last_witness :
  exists ms, orm_get_messages (sample_conversation 1 1) None None None sample_session
             = Ok (ms, sample_session)
  /\ orm_get_last_message (sample_conversation 1 1) sample_session
     = Ok (match rev ms with [] => None | m :: _ => Some m end, sample_session).
Proof. apply orm_get_last_message_is_last. reflexivity. Defined.

Section KwargsFrame.
Variables T attr kwarg : Type.
Variable attr_of : kwarg -> attr.
Variable attr_eq_dec : forall a b : attr, {a = b} + {a <> b}.
Variable getattr : T -> attr -> kwarg.
Variable setattr : T -> kwarg -> T.
Hypothesis getattr_setattr_other :
  forall x k a, attr_of k <> a -> getattr (setattr x k) a = getattr x a.

(** An attribute that [kwargs] does not name keeps its value. *)
Lemma getattr_set_kwargs_unnamed (x : T) (kwargs : list kwarg) (a : attr) :
  kwarg_for attr_of attr_eq_dec kwargs a = None ->
  getattr (set_kwargs setattr x kwargs) a = getattr x a.
Proof.
  unfold set_kwargs. revert x.
  induction kwargs as [|k kwargs IH]; intros x Hn; simpl in *; [reflexivity|].
  destruct (attr_eq_dec (attr_of k) a) as [E|E]; [discriminate|].
  rewrite IH by exact Hn. apply getattr_setattr_other, E.
Qed.
End KwargsFrame.

Lemma find_put {A} (key : A -> Z) (l : list A) (old : Z) (r : A) :
  existsb (fun x => key x =? old) l = true -> key r = old ->
  find (fun x => key x =? old) (map (fun x => if key x =? old then r else x) l) = Some r.
Proof.
  intros He Hr. induction l as [|x l IH]; simpl in *; [discriminate|].
  destruct (key x =? old) eqn:Hx; simpl.
  - rewrite Hr, Z.eqb_refl. reflexivity.
  - rewrite Hx. apply IH, He.
Qed.

(** X13: after an edit whose [kwargs] do not set [id], fetching by the
    entity's id ([session.get]) returns the edited entity. *)
Theorem orm_edit_then_get :
  (forall (s s' : Session) (user r : User.t) (kwargs : list User.kwarg),
     kwarg_for User.attr_of User.attr_eq_dec kwargs User.a_id = None ->
     user_exists (work s) (User.id user) = true ->
     orm_edit_user user kwargs s = Ok (r, s') ->
     orm_get_user (User.id user) s' = Ok (Some r, s'))
  /\ (forall (s s' : Session) (conversation r : Conversation.t)
             (kwargs : list Conversation.kwarg),
        kwarg_for Conversation.attr_of Conversation.attr_eq_dec kwargs Conversation.a_id = None ->
        conversation_exists (work s) (Conversation.id conversation) = true ->
        orm_edit_conversation conversation kwargs s = Ok (r, s') ->
        orm_get_conversation (Conversation.id conversation) s' = Ok (Some r, s'))
  /\ (forall (s s' : Session) (message r : Message.t) (kwargs : list Message.kwarg),
        kwarg_for Message.attr_of Message.attr_eq_dec kwargs Message.a_id = None ->
        message_exists (work s) (Message.id message) = true ->
        orm_edit_message message kwargs s = Ok (r, s') ->
        orm_get_message (Message.id message) s' = Ok (Some r, s')).
Proof.
  split; [|split].
  - intros [d w t n] s' user r kwargs Hid Hex H. unfold orm_edit_user in H. edit_run H.
    get_run. do 3 f_equal.
    apply find_put; [exact Hex|].
    pose proof (getattr_set_kwargs_unnamed _ _ _ _ User.attr_eq_dec _ _
                  user_getattr_setattr_other user kwargs _ Hid) as Hg.
    simpl in Hg. congruence.
  - intros [d w t n] s' conversation r kwargs Hid Hex H.
    unfold orm_edit_conversation in H. edit_run H.
    get_run. do 3 f_equal.
    apply find_put; [exact Hex|].
    pose proof (getattr_set_kwargs_unnamed _ _ _ _ Conversation.attr_eq_dec _ _
                  conversation_getattr_setattr_other conversation kwargs _ Hid) as Hg.
    simpl in Hg. congruence.
  - intros [d w t n] s' message r kwargs Hid Hex H. message_kwarg_ok H. edit_run H.
    get_run. do 3 f_equal.
    apply find_put; [exact Hex|].
    pose proof (getattr_set_kwargs_unnamed _ _ _ _ Message.attr_eq_dec _ _
                  message_getattr_setattr_other message kwargs _ Hid) as Hg.
    simpl in Hg. congruence.
Qed.

Lemma orm_edit_then_get_witness :
  (exists r s', orm_edit_user (sample_user 2 "alice")
                  [User.kw_email (Some "alice@example.org"%string)] sample_session = Ok (r, s')
   /\ orm_get_user 2 s' = Ok (Some r, s'))
  /\ (exists r s', orm_edit_conversation (sample_conversation 1 1)
                     [Conversation.kw_title (Some "greeting"%string)] sample_session = Ok (r, s')
      /\ orm_get_conversation 1 s' = Ok (Some r, s'))
  /\ (exists r s', orm_edit_message (sample_message 2 2)
                     [Message.kw_role "assistant"] sample_session = Ok (r, s')
      /\ orm_get_message 2 s' = Ok (Some r, s')).
Proof.
  destruct orm_edit_then_get as [Hu [Hc Hm]].
  split; [|split];
    match goal with
    | |- exists r s', ?run = Ok (r, s') /\ _ =>
        destruct run as [[r s']|e] eqn:E; [exists r, s'; split; [reflexivity|] | cbv in E; discriminate]
    end.
  - exact (Hu sample_session s' (sample_user 2 "alice") r [User.kw_email (Some "alice@example.org"%string)] eq_refl eq_refl E).
  - exact (Hc sample_session s' (sample_conversation 1 1) r
             [Conversation.kw_title (Some "greeting"%string)] eq_refl eq_refl E).
  - exact (Hm sample_session s' (sample_message 2 2) r [Message.kw_role "assistant"] eq_refl eq_refl E).
Defined.

Lemma filter_none {A} (p : A -> bool) (l : list A) :
  (forall x, In x l -> p x = false) -> filter p l = [].
Proof.
  induction l as [|x l IH]; intros H; simpl; [reflexivity|].
  rewrite (H x (or_introl eq_refl)). apply IH. intros y Hy. apply H. right. exact Hy.
Qed.

Lemma find_none {A} (p : A -> bool) (l : list A) :
  (forall x, In x l -> p x = false) -> find p l = None.
Proof.
  induction l as [|x l IH]; intros H; simpl; [reflexivity|].
  rewrite (H x (or_introl eq_refl)). apply IH. intros y Hy. apply H. right. exact Hy.
Qed.

(** A query none of whose rows passes its filters yields no row, whatever
    its order, limit and offset. *)
Lemma q_all_limit_offset_nil {A} (q : Query A) (limit offset : option nat) :
  filter (fun r => forallb (fun p => p r) (q_filters q)) (q_rows q) = [] ->
  q_all (_apply_limit_offset q limit offset) = [].
Proof.
  intros H. destruct limit as [l|], offset as [o|]; unfold q_all; simpl; rewrite H;
    destruct (q_order q), (q_offset q), (q_limit q); simpl;
    rewrite ?skipn_nil, ?firstn_nil; reflexivity.
Qed.

Ltac del_run H :=
  unfold bind, get_session, modify_work, ret, raise in H; simpl in H;
  match type of H with
  | context [if ?b then _ else _] => destruct b; [|discriminate]
  end;
  unfold session_commit in H; simpl in H;
  match type of H with
  | context [constraints_ok ?w] =>
      let Hc := fresh "Hcommit" in destruct (constraints_ok w) eqn:Hc; [|discriminate]
  end;
  injection H as <- <-.

(** X14: once a delete has committed, the deleted row is no longer found
    by [session.get]; a deleted user's conversations and their messages,
    and a deleted conversation's messages, are no longer listed. *)
Theorem orm_delete_then_get :
  (forall (s s' : Session) (user r : User.t),
     orm_delete_user user s = Ok (r, s') ->
     orm_get_user (User.id user) s' = Ok (None, s')
     /\ (forall limit offset, orm_get_conversations user limit offset true s' = Ok ([], s'))
     /\ (forall c limit offset, In c (conversations (work s)) ->
           Conversation.user_id c = User.id user ->
           orm_get_messages c limit offset None s' = Ok ([], s')))
  /\ (forall (s s' : Session) (conversation : Conversation.t) r,
        orm_delete_conversation conversation s = Ok (r, s') ->
        orm_get_conversation (Conversation.id conversation) s' = Ok (None, s')
        /\ (forall limit offset,
              orm_get_messages conversation limit offset None s' = Ok ([], s'))
        /\ orm_get_last_message conversation s' = Ok (None, s'))
  /\ (forall (s s' : Session) (message : Message.t) r,
        orm_delete_message message s = Ok (r, s') ->
        orm_get_message (Message.id message) s' = Ok (None, s')).
Proof.
  split; [|split].
  - intros [d w t n] s' user r H. unfold orm_delete_user in H. del_run H.
    split; [|split].
    + get_run. do 3 f_equal. apply find_none. intros u Hu.
      apply filter_In in Hu as [_ Hu]. apply negb_true_iff in Hu. exact Hu.
    + intros limit offset. get_run. do 2 f_equal.
      apply q_all_limit_offset_nil. simpl. apply filter_none. intros c Hc.
      apply filter_In in Hc as [_ Hc]. apply negb_true_iff in Hc.
      rewrite Hc. reflexivity.
    + intros c limit offset Hc Hcu. simpl in Hc. get_run. do 2 f_equal.
      apply q_all_limit_offset_nil. simpl. apply filter_none. intros m Hm.
      apply filter_In in Hm as [_ Hm]. apply negb_true_iff in Hm.
      destruct (Message.conversation_id m =? Conversation.id c) eqn:E; [|reflexivity].
      exfalso. apply Z.eqb_eq in E.
      apply not_true_iff_false in Hm. apply Hm, existsb_exists.
      exists (Conversation.id c). split; [|apply Z.eqb_eq, E].
      apply in_map, filter_In. split; [exact Hc | apply Z.eqb_eq, Hcu].
  - intros [d w t n] s' conversation r H. unfold orm_delete_conversation in H. del_run H.
    split; [|split].
    + get_run. do 3 f_equal. apply find_none. intros c Hc.
      apply filter_In in Hc as [_ Hc]. apply negb_true_iff in Hc. exact Hc.
    + intros limit offset. get_run. do 2 f_equal.
      apply q_all_limit_offset_nil. simpl. apply filter_none. intros m Hm.
      apply filter_In in Hm as [_ Hm]. apply negb_true_iff in Hm.
      rewrite Hm. reflexivity.
    + get_run. unfold q_first.
      match goal with
      | |- context [q_all (q_set_limit 1 ?q)] =>
          change (q_all (q_set_limit 1 q)) with (q_all (_apply_limit_offset q (Some 1%nat) None));
          rewrite q_all_limit_offset_nil; [reflexivity|]
      end.
      simpl. apply filter_none. intros m Hm. apply filter_In in Hm as [_ Hm]. apply negb_true_iff in Hm.
      rewrite Hm. reflexivity.
  - intros [d w t n] s' message r H. unfold orm_delete_message in H. del_run H.
    get_run. do 3 f_equal. apply find_none. intros m Hm.
    apply filter_In in Hm as [_ Hm]. apply negb_true_iff in Hm. exact Hm.
Qed.

Lemma orm_delete_then_get_witness :
  (exists r s', orm_delete_user (sample_user 1 "bob") sample_session = Ok (r, s')
   /\ orm_get_user 1 s' = Ok (None, s')
   /\ orm_get_conversations (sample_user 1 "bob") None None true s' = Ok ([], s')
   /\ orm_get_messages (sample_conversation 1 1) None None None s' = Ok ([], s'))
  /\ (exists r s', orm_delete_conversation (sample_conversation 2 2) sample_session = Ok (r, s')
      /\ orm_get_conversation 2 s' = Ok (None, s')
      /\ orm_get_messages (sample_conversation 2 2) (Some 5%nat) None None s' = Ok ([], s')
      /\ orm_get_last_message (sample_conversation 2 2) s' = Ok (None, s'))
  /\ (exists r s', orm_delete_message (sample_message 3 1) sample_session = Ok (r, s')
      /\ orm_get_message 3 s' = Ok (None, s')).
Proof.
  destruct orm_delete_then_get as [Hu [Hc Hm]].
  split; [|split];
    match goal with
    | |- exists r s', ?run = Ok (r, s') /\ _ =>
        destruct run as [[r s']|e] eqn:E; [exists r, s'; split; [reflexivity|] | cbv in E; discriminate]
    end.
  - destruct (Hu sample_session s' (sample_user 1 "bob") r E) as [H1 [H2 H3]].
    split; [exact H1 | split; [apply H2 |]].
    apply (H3 (sample_conversation 1 1)); [simpl; left; reflexivity | reflexivity].
  - destruct (Hc sample_session s' (sample_conversation 2 2) r E) as [H1 [H2 H3]].
    split; [exact H1 | split; [apply H2 | exact H3]].
  - exact (Hm sample_session s' (sample_message 3 1) r E).
Defined.

Lemma find_filter_keep {A} (p q : A -> bool) (l : list A) (x : A) :
  find p l = Some x -> q x = true -> find p (filter q l) = Some x.
Proof.
  induction l as [|y l IH]; intros Hf Hq; simpl in *; [discriminate|].
  destruct (p y) eqn:Hp.
  - injection Hf as ->. rewrite Hq. simpl. rewrite Hp. reflexivity.
  - destruct (q y); simpl; [rewrite Hp|]; apply IH; assumption.
Qed.

Ltac get_found H :=
  unfold orm_get_user, orm_get_conversation, orm_get_message, autoflush,
    bind, get_session, ret in H;
  simpl in H;
  match type of H with
  | context [constraints_ok ?w] => destruct (constraints_ok w); [|discriminate]
  end;
  injection H as H.

(** X15: a delete removes no other row: a user, conversation or message
    that [session.get] found before the delete and that the delete does not
    reach (not the deleted row, not under it through a foreign key) is
    found again, unchanged, after it. *)
Theorem orm_delete_keeps_others :
  (forall (s s' : Session) (user r : User.t),
     orm_delete_user user s = Ok (r, s') ->
     (forall k u, orm_get_user k s = Ok (Some u, s) -> User.id u <> User.id user ->
        orm_get_user k s' = Ok (Some u, s'))
     /\ (forall k c, orm_get_conversation k s = Ok (Some c, s) ->
           Conversation.user_id c <> User.id user ->
           orm_get_conversation k s' = Ok (Some c, s'))
     /\ (forall k m, orm_get_message k s = Ok (Some m, s) ->
           (forall c, In c (conversations (work s)) -> Conversation.user_id c = User.id user ->
              Message.conversation_id m <> Conversation.id c) ->
           orm_get_message k s' = Ok (Some m, s')))
  /\ (forall (s s' : Session) (conversation : Conversation.t) r,
        orm_delete_conversation conversation s = Ok (r, s') ->
        (forall k x, orm_get_user k s = Ok (x, s) -> orm_get_user k s' = Ok (x, s'))
        /\ (forall k c, orm_get_conversation k s = Ok (Some c, s) ->
              k <> Conversation.id conversation ->
              orm_get_conversation k s' = Ok (Some c, s'))
        /\ (forall k m, orm_get_message k s = Ok (Some m, s) ->
              Message.conversation_id m <> Conversation.id conversation ->
              orm_get_message k s' = Ok (Some m, s')))
  /\ (forall (s s' : Session) (message : Message.t) r,
        orm_delete_message message s = Ok (r, s') ->
        (forall k x, orm_get_user k s = Ok (x, s) -> orm_get_user k s' = Ok (x, s'))
        /\ (forall k x, orm_get_conversation k s = Ok (x, s) ->
              orm_get_conversation k s' = Ok (x, s'))
        /\ (forall k m, orm_get_message k s = Ok (Some m, s) -> k <> Message.id message ->
              orm_get_message k s' = Ok (Some m, s'))).
Proof.
  split; [|split].
  - intros [d w t n] s' user r H. unfold orm_delete_user in H. del_run H.
    split; [|split].
    + intros k u Hg Hne. get_found Hg. get_run. do 3 f_equal.
      apply find_filter_keep; [exact Hg|]. apply negb_true_iff, Z.eqb_neq, Hne.
    + intros k c Hg Hne. get_found Hg. get_run. do 3 f_equal.
      apply find_filter_keep; [exact Hg|]. apply negb_true_iff, Z.eqb_neq, Hne.
    + intros k m Hg Hne. simpl in Hne. get_found Hg. get_run. do 3 f_equal.
      apply find_filter_keep; [exact Hg|]. apply negb_true_iff, not_true_iff_false.
      intros Hex. apply existsb_exists in Hex as [cid [Hcid Heq]].
      apply in_map_iff in Hcid as [c [<- Hc]]. apply filter_In in Hc as [Hc Hcu].
      apply Z.eqb_eq in Hcu, Heq. exact (Hne c Hc Hcu Heq).
  - intros [d w t n] s' conversation r H. unfold orm_delete_conversation in H. del_run H.
    split; [|split].
    + intros k x Hg. get_found Hg. get_run. rewrite Hg. reflexivity.
    + intros k c Hg Hne. get_found Hg. get_run. do 3 f_equal.
      apply find_filter_keep; [exact Hg|].
      apply find_some in Hg as [_ Hk]. apply Z.eqb_eq in Hk. subst k.
      apply negb_true_iff, Z.eqb_neq, Hne.
    + intros k m Hg Hne. get_found Hg. get_run. do 3 f_equal.
      apply find_filter_keep; [exact Hg|]. apply negb_true_iff, Z.eqb_neq, Hne.
  - intros [d w t n] s' message r H. unfold orm_delete_message in H. del_run H.
    split; [|split].
    + intros k x Hg. get_found Hg. get_run. rewrite Hg. reflexivity.
    + intros k x Hg. get_found Hg. get_run. rewrite Hg. reflexivity.
    + intros k m Hg Hne. get_found Hg. get_run. do 3 f_equal.
      apply find_filter_keep; [exact Hg|].
      apply find_some in Hg as [_ Hk]. apply Z.eqb_eq in Hk. subst k.
      apply negb_true_iff, Z.eqb_neq, Hne.
Qed.

Lemma orm_delete_keeps_others_witness :
  (exists r s', orm_delete_user (sample_user 1 "bob") sample_session = Ok (r, s')
   /\ orm_get_user 2 s' = Ok (Some (sample_user 2 "alice"), s')
   /\ orm_get_conversation 2 s' = Ok (Some (sample_conversation 2 2), s')
   /\ orm_get_message 2 s' = Ok (Some (sample_message 2 2), s'))
  /\ (exists r s', orm_delete_conversation (sample_conversation 1 1) sample_session = Ok (r, s')
      /\ orm_get_user 1 s' = Ok (Some (sample_user 1 "bob"), s')
      /\ orm_get_conversation 2 s' = Ok (Some (sample_conversation 2 2), s')
      /\ orm_get_message 2 s' = Ok (Some (sample_message 2 2), s'))
  /\ (exists r s', orm_delete_message (sample_message 3 1) sample_session = Ok (r, s')
      /\ orm_get_conversation 1 s' = Ok (Some (sample_conversation 1 1), s')
      /\ orm_get_message 1 s' = Ok (Some (sample_message 1 1), s')).
Proof.
  destruct orm_delete_keeps_others as [Hu [Hc Hm]].
  split; [|split];
    match goal with
    | |- exists r s', ?run = Ok (r, s') /\ _ =>
        destruct run as [[r s']|e] eqn:E; [exists r, s'; split; [reflexivity|] | cbv in E; discriminate]
    end.
  - destruct (Hu sample_session s' (sample_user 1 "bob") r E) as [H1 [H2 H3]].
    split; [|split].
    + apply H1; [reflexivity | discriminate].
    + apply H2; [reflexivity | discriminate].
    + apply H3; [reflexivity|]. simpl. intros c [<-|[<-|[]]]; simpl; discriminate.
  - destruct (Hc sample_session s' (sample_conversation 1 1) r E) as [H1 [H2 H3]].
    split; [|split].
    + apply H1. reflexivity.
    + apply H2; [reflexivity | discriminate].
    + apply H3; [reflexivity | discriminate].
  - destruct (Hm sample_session s' (sample_message 3 1) r E) as [H1 [H2 H3]].
    split.
    + apply H2. reflexivity.
    + apply H3; [reflexivity | discriminate].
Defined.

Lemma add_conversation_constraints (w : DB) (c : Conversation.t) :
  constraints_ok w = true -> user_exists w (Conversation.user_id c) = true ->
  Conversation.id c = next_id (map Conversation.id (conversations w)) ->
  constraints_ok (mkDB (users w) (conversations w ++ [c]) (messages w)) = true.
Proof.
  intros Hok Hu Hid. destruct w as [us cs ms].
  unfold constraints_ok, keys_ok, refs_ok, user_exists, conversation_exists in *. simpl in *.
  repeat rewrite andb_true_iff in Hok. destruct Hok as [[[[[Hui Hn] He] Hci] Hmi] [Hrc Hrm]].
  rewrite Hui, Hn, He, Hmi, map_app. simpl.
  rewrite nodupb_snoc; [| exact Hci | intros y Hy; rewrite Hid; apply next_id_fresh, Hy].
  simpl. rewrite forallb_app, Hrc. simpl. rewrite Hu. simpl.
  apply forallb_forall. intros m Hm. rewrite forallb_forall in Hrm.
  rewrite existsb_app, (Hrm m Hm). reflexivity.
Qed.

Lemma add_user_constraints (w : DB) (u : User.t) :
  constraints_ok w = true ->
  User.id u = next_id (map User.id (users w)) ->
  ~ In (User.username u) (map User.username (users w)) ->
  (forall e, User.email u = Some e ->
     ~ In e (flat_map (fun x => opt_list (User.email x)) (users w))) ->
  constraints_ok (mkDB (users w ++ [u]) (conversations w) (messages w)) = true.
Proof.
  intros Hok Hid Hn He. destruct w as [us cs ms].
  unfold constraints_ok, keys_ok, refs_ok, user_exists, conversation_exists in *. simpl in *.
  repeat rewrite andb_true_iff in Hok. destruct Hok as [[[[[Hui Hun] Hue] Hci] Hmi] [Hrc Hrm]].
  rewrite Hci, Hmi, Hrm, !map_app, flat_map_app. simpl.
  rewrite (nodupb_snoc _ Z.eqb); [| exact Hui | intros y Hy; rewrite Hid; apply next_id_fresh, Hy].
  rewrite (nodupb_snoc _ String.eqb); [| exact Hun |].
  2: { intros y Hy. apply String.eqb_neq. intros ->. exact (Hn Hy). }
  destruct (User.email u) as [e|] eqn:Ee; simpl.
  - rewrite (nodupb_snoc _ String.eqb); [| exact Hue |].
    2: { intros y Hy. apply String.eqb_neq. intros ->. exact (He _ eq_refl Hy). }
    simpl. rewrite andb_true_r. apply forallb_forall. intros c Hc. rewrite forallb_forall in Hrc.
    rewrite existsb_app, (Hrc c Hc). reflexivity.
  - rewrite app_nil_r, Hue. simpl. rewrite andb_true_r. apply forallb_forall. intros c Hc.
    rewrite forallb_forall in Hrc. rewrite existsb_app, (Hrc c Hc). reflexivity.
Qed.

(** X16: on a session whose rows meet every constraint, adding a
    Conversation for a stored user commits, and the new Conversation is
    then found by its id; adding a User whose username and (non-null)
    email no stored User has commits and stores it. With X6 and X8 these
    are exactly the cases where the adds succeed. *)
Theorem orm_add_succeeds :
  (forall (s : Session) (user : User.t) (title : option string) (hidden : bool),
     constraints_ok (work s) = true ->
     user_exists (work s) (User.id user) = true ->
     exists c s', orm_add_conversation user title hidden s = Ok (c, s')
     /\ orm_get_conversation (Conversation.id c) s' = Ok (Some c, s')
     /\ constraints_ok (db s') = true)
  /\ (forall (s : Session) (username : string) (password email : option string)
             (default_preset : string) (preferences : Json),
        constraints_ok (work s) = true ->
        ~ In username (map User.username (users (work s))) ->
        (forall e, email = Some e ->
           ~ In e (flat_map (fun x => opt_list (User.email x)) (users (work s)))) ->
        exists u s', orm_add_user username password email default_preset preferences s
                     = Ok (u, s')
        /\ In u (users (db s'))
        /\ constraints_ok (db s') = true).
Proof.
  split.
  - intros [d w t n] user title hidden Hok Hu. simpl in *.
    unfold orm_add_conversation, bind, get_now, get_session, modify_work, ret. simpl.
    unfold session_commit. simpl.
    unfold set_conversations.
    rewrite add_conversation_constraints; [| exact Hok | exact Hu | reflexivity].
    do 2 eexists. split; [reflexivity|]. simpl. split; [|apply add_conversation_constraints;
      [exact Hok | exact Hu | reflexivity]].
    get_run. rewrite add_conversation_constraints; [| exact Hok | exact Hu | reflexivity].
    simpl. do 3 f_equal. apply find_snoc_fresh; [|apply Z.eqb_refl].
    intros y Hy. apply next_id_fresh, in_map, Hy.
  - intros [d w t n] username password email default_preset preferences Hok Hn He.
    simpl in *.
    unfold orm_add_user, bind, get_now, get_session, modify_work, ret. simpl.
    unfold session_commit. simpl.
    unfold set_users.
    rewrite add_user_constraints; [| exact Hok | reflexivity | exact Hn | exact He].
    do 2 eexists. split; [reflexivity|]. simpl. split.
    + apply in_or_app. right. left. reflexivity.
    + apply add_user_constraints; [exact Hok | reflexivity | exact Hn | exact He].
Qed.

Lemma orm_add_succeeds_witness :
  (exists c s', orm_add_conversation (sample_user 2 "alice") None true sample_session
                = Ok (c, s')
   /\ orm_get_conversation (Conversation.id c) s' = Ok (Some c, s')
   /\ constraints_ok (db s') = true)
  /\ (exists u s', orm_add_user "carol" None (Some "carol@example.org"%string) EmptyString
                     JNull sample_session = Ok (u, s')
      /\ In u (users (db s')) /\ constraints_ok (db s') = true).
Proof.
  destruct orm_add_succeeds as [Hc Hu]. split.
  - apply Hc; reflexivity.
  - apply Hu; [reflexivity | simpl; intuition discriminate |].
    intros e [= <-]. simpl. tauto.
Defined.

(** X17: with [order_desc=True], [orm_get_conversations] returns the window
    [offset], [limit] of the user's stored Conversations in descending id
    order. *)
Theorem orm_get_conversations_desc_window (s : Session) (user : User.t)
    (limit offset : option nat) :
  exists ordered,
    Permutation (filter (fun c => Conversation.user_id c =? User.id user)
                   (conversations (work s))) ordered
    /\ Sorted (fun a b => Conversation.id b <= Conversation.id a) ordered
    /\ orm_get_conversations user limit offset true s
       = Ok (apply_limit limit (apply_offset offset ordered), s).
Proof.
  set (p := fun c => Conversation.user_id c =? User.id user).
  exists (sort conversation_id_desc (filter (fun c => p c && true) (conversations (work s)))).
  assert (Hp : filter (fun c => p c && true) (conversations (work s))
               = filter p (conversations (work s)))
    by (apply filter_ext; intros c; apply andb_true_r).
  split; [|split].
  - rewrite <- Hp. apply sort_perm.
  - eapply sorted_weaken; [|apply (sort_sorted _ conversation_id_desc conversation_id_desc_total)].
    intros a b H. apply Z.leb_le, H.
  - unfold orm_get_conversations, bind, get_session, lift, ret, q_all.
    destruct limit, offset; reflexivity.
Qed.

(** X18: without a [target_id], [orm_get_messages] returns the window
    [offset], [limit] of the conversation's stored Messages in ascending id
    order. *)
Theorem orm_get_messages_window (s : Session) (conversation : Conversation.t)
    (limit offset : option nat) :
  exists ordered,
    Permutation (filter (fun m => Message.conversation_id m =? Conversation.id conversation)
                   (messages (work s))) ordered
    /\ Sorted (fun a b => Message.id a <= Message.id b) ordered
    /\ orm_get_messages conversation limit offset None s
       = Ok (apply_limit limit (apply_offset offset ordered), s).
Proof.
  set (p := fun m => Message.conversation_id m =? Conversation.id conversation).
  exists (sort message_id_asc (filter (fun m => p m && true) (messages (work s)))).
  assert (Hp : filter (fun m => p m && true) (messages (work s)) = filter p (messages (work s)))
    by (apply filter_ext; intros m; apply andb_true_r).
  split; [|split].
  - rewrite <- Hp. apply sort_perm.
  - eapply sorted_weaken; [|apply (sort_sorted _ message_id_asc message_id_asc_total)].
    intros a b H. apply Z.leb_le, H.
  - unfold orm_get_messages, bind, get_session, lift, ret, q_all.
    destruct limit, offset; reflexivity.
Qed.

Lemma map_put_same {A B} (key : A -> Z) (f : A -> B) (l : list A) (old : Z) (r : A) :
  (forall x, In x l -> key x = old -> f x = f r) ->
  map f (map (fun x => if key x =? old then r else x) l) = map f l.
Proof.
  induction l as [|x l IH]; intros H; simpl; [reflexivity|].
  rewrite IH by (intros y Hy; apply H; right; exact Hy).
  destruct (key x =? old) eqn:E; [|reflexivity].
  apply Z.eqb_eq in E. rewrite (H x (or_introl eq_refl) E). reflexivity.
Qed.

Lemma forallb_impl {A} (f g : A -> bool) (l : list A) :
  forallb f l = true -> (forall x, In x l -> f x = true -> g x = true) -> forallb g l = true.
Proof.
  intros Hf H. rewrite forallb_forall in *. intros x Hx. apply H; auto.
Qed.

Lemma existsb_put {A} (key : A -> Z) (l : list A) (old : Z) (r : A) (z : Z) :
  key r = old ->
  existsb (fun x => key x =? z) (map (fun x => if key x =? old then r else x) l)
  = existsb (fun x => key x =? z) l.
Proof.
  intros Hr. rewrite !(existsb_key_map key). rewrite map_put_same; [reflexivity|].
  intros x _ Hx. congruence.
Qed.

Lemma edit_user_constraints (w : DB) (user r : User.t) :
  constraints_ok w = true -> In user (users w) ->
  User.id r = User.id user -> User.username r = User.username user ->
  User.email r = User.email user ->
  constraints_ok (put_user (User.id user) r w) = true.
Proof.
  intros Hok Hin Hid Hn He. destruct w as [us cs ms].
  unfold constraints_ok, keys_ok, refs_ok, put_user, set_users, user_exists,
    conversation_exists in *. simpl in *.
  repeat rewrite andb_true_iff in Hok. destruct Hok as [[[[[Hui Hun] Hue] Hci] Hmi] [Hrc Hrm]].
  assert (Hsame : forall x, In x us -> User.id x = User.id user -> x = user)
    by (intros x Hx Hk; apply (key_unique User.id us); auto using nodupb_Z_NoDup).
  rewrite (map_put_same User.id User.id) by (intros x _ Hk; congruence).
  rewrite (map_put_same User.id User.username)
    by (intros x Hx Hk; rewrite (Hsame x Hx Hk); congruence).
  rewrite !flat_map_concat_map,
    (map_put_same User.id (fun x => opt_list (User.email x)))
    by (intros x Hx Hk; rewrite (Hsame x Hx Hk), He; reflexivity).
  rewrite <- flat_map_concat_map, Hui, Hun, Hue, Hci, Hmi, Hrm. simpl.
  rewrite andb_true_r. apply (forallb_impl _ _ _ Hrc). intros c _ Hc.
  rewrite existsb_put by exact Hid. exact Hc.
Qed.

Lemma edit_conversation_constraints (w : DB) (conversation r : Conversation.t) :
  constraints_ok w = true -> In conversation (conversations w) ->
  Conversation.id r = Conversation.id conversation ->
  Conversation.user_id r = Conversation.user_id conversation ->
  constraints_ok (put_conversation (Conversation.id conversation) r w) = true.
Proof.
  intros Hok Hin Hid Hu. destruct w as [us cs ms].
  unfold constraints_ok, keys_ok, refs_ok, put_conversation, set_conversations, user_exists,
    conversation_exists in *. simpl in *.
  repeat rewrite andb_true_iff in Hok. destruct Hok as [[[[[Hui Hun] Hue] Hci] Hmi] [Hrc Hrm]].
  rewrite (map_put_same Conversation.id Conversation.id) by (intros x _ Hk; congruence).
  rewrite Hui, Hun, Hue, Hci, Hmi. simpl. apply andb_true_iff. split.
  - apply forallb_forall. intros y Hy.
    destruct (put_in_inv _ Conversation.id cs _ r y Hy) as [->|Hy'];
      rewrite forallb_forall in Hrc; [rewrite Hu|]; apply Hrc; assumption.
  - apply (forallb_impl _ _ _ Hrm). intros m _ Hm.
    rewrite existsb_put by exact Hid. exact Hm.
Qed.

Lemma edit_message_constraints (w : DB) (message r : Message.t) :
  constraints_ok w = true -> In message (messages w) ->
  Message.id r = Message.id message ->
  Message.conversation_id r = Message.conversation_id message ->
  constraints_ok (put_message (Message.id message) r w) = true.
Proof.
  intros Hok Hin Hid Hc. destruct w as [us cs ms].
  unfold constraints_ok, keys_ok, refs_ok, put_message, set_messages, user_exists,
    conversation_exists in *. simpl in *.
  repeat rewrite andb_true_iff in Hok. destruct Hok as [[[[[Hui Hun] Hue] Hci] Hmi] [Hrc Hrm]].
  rewrite (map_put_same Message.id Message.id) by (intros x _ Hk; congruence).
  rewrite Hui, Hun, Hue, Hci, Hmi, Hrc. simpl.
  apply forallb_forall. intros y Hy.
  destruct (put_in_inv _ Message.id ms _ r y Hy) as [->|Hy'];
    rewrite forallb_forall in Hrm; [rewrite Hc|]; apply Hrm; assumption.
Qed.

Ltac kept_field H getattr_other x kwargs :=
  let Hg := fresh in
  pose proof (getattr_set_kwargs_unnamed _ _ _ _ _ _ _ getattr_other x kwargs _ H) as Hg;
  simpl in Hg; injection Hg as Hg.

Ltac edit_commit lemma :=
  unfold bind, modify_work, ret; simpl; unfold session_commit; simpl;
  match goal with
  | |- context [constraints_ok ?w'] =>
      let E := fresh in
      assert (E : constraints_ok w' = true) by (apply lemma; assumption);
      rewrite E
  end;
  eexists; split; [reflexivity|]; simpl; assumption.

(** X19: on a session whose rows meet every constraint, editing a stored
    row commits and returns the edited object when the keyword arguments
    give each column a value of its type ([None] only for a nullable
    column: the [kwarg] constructors carry the column types) and name
    neither its key nor a unique or referencing column (for a User:
    [id], [username], [email]; for a Conversation: [id], [user_id]; for a
    Message: [id], [conversation_id], and not [message], which
    [orm_edit_message] cannot take). *)
Theorem orm_edit_commits :
  (forall (s : Session) (user : User.t) (kwargs : list User.kwarg),
     constraints_ok (work s) = true -> In user (users (work s)) ->
     kwarg_for User.attr_of User.attr_eq_dec kwargs User.a_id = None ->
     kwarg_for User.attr_of User.attr_eq_dec kwargs User.a_username = None ->
     kwarg_for User.attr_of User.attr_eq_dec kwargs User.a_email = None ->
     exists s', orm_edit_user user kwargs s = Ok (set_kwargs User.setattr user kwargs, s')
     /\ constraints_ok (db s') = true)
  /\ (forall (s : Session) (conversation : Conversation.t) (kwargs : list Conversation.kwarg),
        constraints_ok (work s) = true -> In conversation (conversations (work s)) ->
        kwarg_for Conversation.attr_of Conversation.attr_eq_dec kwargs Conversation.a_id = None ->
        kwarg_for Conversation.attr_of Conversation.attr_eq_dec kwargs
          Conversation.a_user_id = None ->
        exists s', orm_edit_conversation conversation kwargs s
                   = Ok (set_kwargs Conversation.setattr conversation kwargs, s')
        /\ constraints_ok (db s') = true)
  /\ (forall (s : Session) (message : Message.t) (kwargs : list Message.kwarg),
        constraints_ok (work s) = true -> In message (messages (work s)) ->
        kwarg_for Message.attr_of Message.attr_eq_dec kwargs Message.a_id = None ->
        kwarg_for Message.attr_of Message.attr_eq_dec kwargs
          Message.a_conversation_id = None ->
        kwarg_for Message.attr_of Message.attr_eq_dec kwargs Message.a_message = None ->
        exists s', orm_edit_message message kwargs s
                   = Ok (set_kwargs Message.setattr message kwargs, s')
        /\ constraints_ok (db s') = true).
Proof.
  split; [|split].
  - intros [d w t n] user kwargs Hok Hin H1 H2 H3. simpl in *. unfold orm_edit_user.
    kept_field H1 user_getattr_setattr_other user kwargs.
    kept_field H2 user_getattr_setattr_other user kwargs.
    kept_field H3 user_getattr_setattr_other user kwargs.
    edit_commit edit_user_constraints.
  - intros [d w t n] conversation kwargs Hok Hin H1 H2. simpl in *.
    unfold orm_edit_conversation.
    kept_field H1 conversation_getattr_setattr_other conversation kwargs.
    kept_field H2 conversation_getattr_setattr_other conversation kwargs.
    edit_commit edit_conversation_constraints.
  - intros [d w t n] message kwargs Hok Hin H1 H2 H3. simpl in *.
    unfold orm_edit_message. rewrite H3.
    kept_field H1 message_getattr_setattr_other message kwargs.
    kept_field H2 message_getattr_setattr_other message kwargs.
    edit_commit edit_message_constraints.
Qed.

Lemma orm_edit_commits_witness :
  (exists s', orm_edit_user (sample_user 1 "bob") [User.kw_default_preset "gpt"]
                sample_session
              = Ok (set_kwargs User.setattr (sample_user 1 "bob")
                      [User.kw_default_preset "gpt"], s')
   /\ constraints_ok (db s') = true)
  /\ (exists s', orm_edit_conversation (sample_conversation 2 2)
                   [Conversation.kw_hidden true] sample_session
                 = Ok (set_kwargs Conversation.setattr (sample_conversation 2 2)
                         [Conversation.kw_hidden true], s')
      /\ constraints_ok (db s') = true)
  /\ (exists s', orm_edit_message (sample_message 3 1) [Message.kw_role "assistant"]
                   sample_session
                 = Ok (set_kwargs Message.setattr (sample_message 3 1)
                         [Message.kw_role "assistant"], s')
      /\ constraints_ok (db s') = true).
Proof.
  destruct orm_edit_commits as [Hu [Hc Hm]]. split; [|split].
  - apply Hu; [reflexivity | simpl; auto | reflexivity | reflexivity | reflexivity].
  - apply Hc; [reflexivity | simpl; auto | reflexivity | reflexivity].
  - apply Hm; [reflexivity | simpl; auto | reflexivity | reflexivity | reflexivity].
Defined.

(** Overwriting the row keyed [old] with [r] duplicates a column value
    when [r] takes the value of another row. *)
Lemma nodupb_put_dup {A B} (eqb : B -> B -> bool) (key : A -> Z) (f : A -> B)
    (l : list A) (old : Z) (r a b : A) :
  (forall x, eqb x x = true) ->
  In a l -> In b l -> key a = old -> key b <> old -> f r = f b ->
  nodupb eqb (map f (map (fun x => if key x =? old then r else x) l)) = false.
Proof.
  intros Hrefl. induction l as [|x l IH]; simpl; intros Ha Hb Hka Hkb Hf; [contradiction|].
  destruct Ha as [<-|Ha]; [|destruct Hb as [<-|Hb]].
  - destruct Hb as [<-|Hb]; [congruence|].
    rewrite (proj2 (Z.eqb_eq _ _) Hka).
    replace (existsb (eqb (f r)) _) with true; [reflexivity|]. symmetry.
    apply existsb_exists. exists (f b). split; [|rewrite Hf; apply Hrefl].
    apply in_map, in_map_iff. exists b. split; [|exact Hb].
    apply Z.eqb_neq in Hkb. rewrite Hkb. reflexivity.
  - apply Z.eqb_neq in Hkb. rewrite Hkb.
    replace (existsb (eqb (f x)) _) with true; [reflexivity|]. symmetry.
    apply existsb_exists. exists (f r). split; [|rewrite Hf; apply Hrefl].
    apply in_map, in_map_iff. exists a. split; [|exact Ha].
    rewrite Hka, Z.eqb_refl. reflexivity.
  - rewrite IH by assumption. apply andb_false_r.
Qed.

(** X20: editing a stored User so that its username becomes that of
    another stored User raises [IntegrityError] ([unique=True] on
    [username]) and commits nothing. *)
Theorem orm_edit_user_duplicate_username (s : Session) (user v : User.t)
    (kwargs : list User.kwarg) :
  In user (users (work s)) -> In v (users (work s)) -> User.id v <> User.id user ->
  User.username (set_kwargs User.setattr user kwargs) = User.username v ->
  orm_edit_user user kwargs s = Err IntegrityError.
Proof.
  intros Hu Hv Hid Hn. destruct s as [d w t n]. simpl in *.
  unfold orm_edit_user, bind, modify_work, ret. simpl. unfold session_commit. simpl.
  replace (constraints_ok _) with false; [reflexivity|]. symmetry.
  unfold constraints_ok, keys_ok, put_user, set_users. simpl.
  rewrite (nodupb_put_dup String.eqb User.id User.username (users w) (User.id user)
             _ user v String.eqb_refl Hu Hv eq_refl Hid Hn).
  rewrite ?andb_false_l, ?andb_false_r. reflexivity.
Qed.

Lemma orm_edit_user_duplicate_username_witness :
  orm_edit_user (sample_user 1 "bob") [User.kw_username "alice"] sample_session
  = Err IntegrityError.
Proof.
  apply (orm_edit_user_duplicate_username sample_session (sample_user 1 "bob")
           (sample_user 2 "alice")); simpl; auto; discriminate.
Defined.
